(** * schedtrack-m: the credential-submission flow of [src/components/auth.tsx]

  A shallow embedding of the [Auth] component: its four pieces of
  React state, the two asynchronous submit functions
  [signInWithEmail] and [signUpWithEmail], the two [onChangeText]
  handlers, and the gating of the controls by [loading]. *)

From Stdlib Require Import List String Ascii NArith Bool Arith Lia.
Import ListNotations.

Set Implicit Arguments.

(** ** JavaScript strings

  A JavaScript string is a finite sequence of UTF-16 code units;
  [length], [trim], [===] and a regular expression without the [u]
  flag all work on code units.  A code unit is kept as a number; the
  properties below hold of every sequence of numbers, so of every
  sequence of 16-bit ones. *)

Module JsString.

Definition char16 := N.
Definition jsstring := list char16.

(** A string literal of the source (all of them are ASCII). *)
Definition js (s : string) : jsstring :=
  map N_of_ascii (list_ascii_of_string s).

(** ECMAScript WhiteSpace and LineTerminator code points: the set that
    [String.prototype.trim] strips and that [\s] matches. *)
Definition is_space (c : char16) : bool :=
  ((9 <=? c) && (c <=? 13) (* TAB LF VT FF CR *)
   || (c =? 32)            (* SP *)
   || (c =? 160)           (* NBSP *)
   || (c =? 5760)          (* U+1680 *)
   || (8192 <=? c) && (c <=? 8202) (* U+2000 .. U+200A *)
   || (c =? 8232) || (c =? 8233)   (* LS PS *)
   || (c =? 8239)          (* U+202F *)
   || (c =? 8287)          (* U+205F *)
   || (c =? 12288)         (* U+3000 *)
   || (c =? 65279))%N.     (* ZWNBSP *)

Fixpoint trimStart (s : jsstring) : jsstring :=
  match s with
  | c :: s' => if is_space c then trimStart s' else s
  | [] => []
  end.

Definition trimEnd (s : jsstring) : jsstring := rev (trimStart (rev s)).

(** [s.trim()] *)
Definition trim (s : jsstring) : jsstring := trimEnd (trimStart s).

(** [a === b] on strings *)
Fixpoint strict_eq (a b : jsstring) : bool :=
  match a, b with
  | [], [] => true
  | x :: a', y :: b' => (x =? y)%N && strict_eq a' b'
  | _, _ => false
  end.

(** ToBoolean on a string: only the empty string is falsy. *)
Definition truthy (s : jsstring) : bool :=
  match s with [] => false | _ :: _ => true end.

(** [a || b] on strings *)
Definition or_else (a b : jsstring) : jsstring := if truthy a then a else b.

End JsString.
Import JsString.
Arguments js s%_string.

(** ** Regular expressions

  The fragment of the ECMAScript pattern language that the source
  uses, over code units.  [test] is decided with Brzozowski
  derivatives; the pattern of the source is anchored at both ends
  ([^] and [$] without the [m] flag), has no [g] or [y] flag (so
  [lastIndex] plays no role) and no captures, so [test] is
  membership of the whole input in the language of the pattern. *)

Module RegExp.

(** An item of a character class. *)
Inductive ClassAtom : Type :=
| ClassSpace                 (* \s *)
| ClassChar (c : char16).    (* a literal character *)

Inductive Pattern : Type :=
| Fail                               (* matches nothing *)
| Empty                              (* matches the empty string *)
| Char (c : char16)                  (* a literal or escaped character *)
| NotIn (cls : list ClassAtom)       (* [^...] *)
| Seq (p q : Pattern)                (* pq *)
| Alt (p q : Pattern)                (* p|q *)
| Star (p : Pattern).                (* p* *)

(** [p+] *)
Definition Plus (p : Pattern) : Pattern := Seq p (Star p).

Definition atom_matches (a : ClassAtom) (c : char16) : bool :=
  match a with
  | ClassSpace => is_space c
  | ClassChar d => (c =? d)%N
  end.

Definition in_class (cls : list ClassAtom) (c : char16) : bool :=
  existsb (fun a => atom_matches a c) cls.

Fixpoint nullable (p : Pattern) : bool :=
  match p with
  | Fail => false
  | Empty => true
  | Char _ => false
  | NotIn _ => false
  | Seq p q => nullable p && nullable q
  | Alt p q => nullable p || nullable q
  | Star _ => true
  end.

Fixpoint deriv (c : char16) (p : Pattern) : Pattern :=
  match p with
  | Fail => Fail
  | Empty => Fail
  | Char d => if (c =? d)%N then Empty else Fail
  | NotIn cls => if in_class cls c then Fail else Empty
  | Seq p q =>
      if nullable p
      then Alt (Seq (deriv c p) q) (deriv c q)
      else Seq (deriv c p) q
  | Alt p q => Alt (deriv c p) (deriv c q)
  | Star p => Seq (deriv c p) (Star p)
  end.

(** [/^p$/.test(s)] *)
Fixpoint test (p : Pattern) (s : jsstring) : bool :=
  match s with
  | [] => nullable p
  | c :: s' => test (deriv c p) s'
  end.

(** The language of a pattern. *)
Inductive matches : Pattern -> jsstring -> Prop :=
| m_empty : matches Empty []
| m_char c : matches (Char c) [c]
| m_notin cls c : in_class cls c = false -> matches (NotIn cls) [c]
| m_seq p q s t : matches p s -> matches q t -> matches (Seq p q) (s ++ t)
| m_alt_l p q s : matches p s -> matches (Alt p q) s
| m_alt_r p q s : matches q s -> matches (Alt p q) s
| m_star_nil p : matches (Star p) []
| m_star_cons p s t :
    matches p s -> matches (Star p) t -> matches (Star p) (s ++ t).

End RegExp.

(** ** The auth client ([supabase.auth])

  The client is imported from [../utils/supabase] and wraps the
  external service; only its interface matters here.  Both calls
  return a promise of [{ data, error }]: the promise may reject, and
  when it is fulfilled [error] is an object with a [message] or
  [null], and [data.session] is an object or [null]. *)

Module Supabase.

Record Credentials : Type := { email : jsstring; password : jsstring }.

Record AuthError : Type := { message : jsstring }.

(** A session is only tested for being [null]. *)
Inductive Session : Type := ActiveSession.

Record AuthData : Type := { session : option Session }.

Record AuthResponse : Type := { data : AuthData; error : option AuthError }.

(** The value thrown when an awaited promise rejects. *)
Inductive Exn : Type := Thrown (reason : jsstring).

(** How an awaited promise settles. *)
Inductive Settled : Type :=
| Fulfilled (r : AuthResponse)
| Rejected (e : Exn).

Inductive Request : Type :=
| SignInWithPassword (c : Credentials)
| SignUp (c : Credentials).

(** A client answers each request; the answer stands for whatever the
    service and the network do. *)
Record Client : Type := {
  signInWithPassword : Credentials -> Settled;
  signUp : Credentials -> Settled
}.

Definition send (cl : Client) (q : Request) : Settled :=
  match q with
  | SignInWithPassword c => signInWithPassword cl c
  | SignUp c => signUp cl c
  end.

End Supabase.

(** ** Asynchronous functions

  The body of an [async] function as a tree of its effects: state
  setter calls and alerts ([Perform]), one suspension point per
  awaited request ([Await]), a normal return and a thrown exception.
  [try_catch] and [finally] are the [try] statement of the source. *)

Module Async.

Import Supabase.

Inductive Action : Type :=
| SetEmail (text : jsstring)
| SetPassword (text : jsstring)
| SetLoading (b : bool)
| SetError (msg : jsstring)
| AlertAlert (title msg : jsstring).

Inductive Async (R : Type) : Type :=
| Return (r : R)
| Throw (e : Exn)
| Perform (a : Action) (k : Async R)
| Await (q : Request) (k : Settled -> Async R).
Arguments Throw {R} e.

Fixpoint bind {A B : Type} (m : Async A) (f : A -> Async B) : Async B :=
  match m with
  | Return a => f a
  | Throw e => Throw e
  | Perform a k => Perform a (bind k f)
  | Await q k => Await q (fun r => bind (k r) f)
  end.

Definition perform (a : Action) : Async unit := Perform a (Return tt).

(** [await q]: the fulfilled value, or the rejection rethrown. *)
Definition await (q : Request) : Async AuthResponse :=
  Await q (fun r =>
    match r with
    | Fulfilled v => Return v
    | Rejected e => Throw e
    end).

(** [try { body } catch (err) { handler err }] *)
Fixpoint try_catch {R : Type} (body : Async R) (handler : Exn -> Async R)
  : Async R :=
  match body with
  | Return r => Return r
  | Throw e => handler e
  | Perform a k => Perform a (try_catch k handler)
  | Await q k => Await q (fun r => try_catch (k r) handler)
  end.

(** [try { body } finally { cleanup }]: the cleanup runs when the body
    returns and when it throws; the completion of the body is kept. *)
Fixpoint finally {R : Type} (body : Async R) (cleanup : Async unit)
  : Async R :=
  match body with
  | Return r => bind cleanup (fun _ => Return r)
  | Throw e => bind cleanup (fun _ => Throw e)
  | Perform a k => Perform a (finally k cleanup)
  | Await q k => Await q (fun r => finally (k r) cleanup)
  end.

Module Notations.
  Notation "x <- m ;; k" := (bind m (fun x => k))
    (at level 61, m at next level, right associativity).
  Notation "m ;; k" := (bind m (fun _ => k))
    (at level 61, right associativity).
  Notation "'TRY' body 'CATCH' h 'FINALLY' c" :=
    (finally (try_catch body h) c)
    (at level 10, body at level 9, h at level 9, c at level 9).
End Notations.

End Async.

(** ** The component ([export default function Auth]) *)

Module Auth.

Import Async Async.Notations.

(** The four [useState] cells. *)
Record FormState : Type := {
  email : jsstring;
  password : jsstring;
  loading : bool;
  error : jsstring
}.

(** [useState('')], [useState('')], [useState(false)], [useState('')] *)
Definition initial : FormState :=
  {| email := js ""; password := js ""; loading := false; error := js "" |}.

Definition setEmail (text : jsstring) : Async unit := perform (SetEmail text).
Definition setPassword (text : jsstring) : Async unit :=
  perform (SetPassword text).
Definition setLoading (b : bool) : Async unit := perform (SetLoading b).
Definition setError (msg : jsstring) : Async unit := perform (SetError msg).
Definition alert (title msg : jsstring) : Async unit :=
  perform (AlertAlert title msg).

(** [[^\s@]+] *)
Definition emailPart : RegExp.Pattern :=
  RegExp.Plus (RegExp.NotIn [RegExp.ClassSpace; RegExp.ClassChar 64%N]).

(** [/^[^\s@]+@[^\s@]+\.[^\s@]+$/] *)
Definition emailRegex : RegExp.Pattern :=
  RegExp.Seq emailPart
    (RegExp.Seq (RegExp.Char 64%N)
       (RegExp.Seq emailPart
          (RegExp.Seq (RegExp.Char 46%N) emailPart))).

(** [signInWithEmail], closed over the [email] and [password] of the
    render it belongs to. *)
Definition signInWithEmail (email password : jsstring) : Async unit :=
  if negb (truthy email) || negb (truthy password) then
    setError (js "Please enter both email and password")
  else
    setLoading true ;;
    setError (js "") ;;
    TRY
      (r <- await (Supabase.SignInWithPassword
                     {| Supabase.email := trim email;
                        Supabase.password := password |}) ;;
       match Supabase.error r with
       | Some e =>
           if strict_eq (Supabase.message e) (js "Invalid login credentials")
           then setError (js "Incorrect email or password")
           else if strict_eq (Supabase.message e) (js "Email not confirmed")
           then setError (js "Please verify your email first")
           else setError (js "An unexpected error occurred. Please try again.")
       | None => Return tt
       end)
    CATCH (fun err => setError (js "Network error. Please check your connection."))
    FINALLY (setLoading false).

(** [signUpWithEmail], closed over [email] and [password] likewise. *)
Definition signUpWithEmail (email password : jsstring) : Async unit :=
  if negb (truthy email) || negb (truthy password) then
    setError (js "Please enter both email and password")
  else if negb (RegExp.test emailRegex email) then
    setError (js "Please enter a valid email address")
  else if (List.length password <? 6)%nat then
    setError (js "Password must be at least 6 characters long")
  else
    setLoading true ;;
    setError (js "") ;;
    TRY
      (r <- await (Supabase.SignUp
                     {| Supabase.email := trim email;
                        Supabase.password := password |}) ;;
       match Supabase.error r with
       | Some e =>
           if strict_eq (Supabase.message e) (js "User already exists")
           then setError (js "An account with this email already exists")
           else setError (or_else (Supabase.message e)
                                  (js "Sign up failed. Please try again."))
       | None =>
           match Supabase.session (Supabase.data r) with
           | None =>
               alert (js "Verification Needed")
                     (js "Please check your inbox for email verification!")
           | Some _ => Return tt
           end
       end)
    CATCH (fun err => setError (js "Network error. Please check your connection."))
    FINALLY (setLoading false).

(** [onChangeText] of the email input *)
Definition onChangeEmailText (text : jsstring) : Async unit :=
  setEmail text ;; setError (js "").

(** [onChangeText] of the password input *)
Definition onChangePasswordText (text : jsstring) : Async unit :=
  setPassword text ;; setError (js "").

(** *** Running a handler

    A setter call replaces its cell; the calls of one handler take
    effect in the order in which they are made. *)

Definition update (a : Action) (s : FormState) : FormState :=
  match a with
  | SetEmail t =>
      {| email := t; password := password s;
         loading := loading s; error := error s |}
  | SetPassword t =>
      {| email := email s; password := t;
         loading := loading s; error := error s |}
  | SetLoading b =>
      {| email := email s; password := password s;
         loading := b; error := error s |}
  | SetError m =>
      {| email := email s; password := password s;
         loading := loading s; error := m |}
  | AlertAlert _ _ => s
  end.

(** What a run shows outside the state: the requests sent, each with
    the state at the moment it was dispatched, and the alerts. *)
Inductive Event : Type :=
| Dispatched (at_state : FormState) (q : Supabase.Request)
| Alerted (title msg : jsstring).

Definition shown (a : Action) : list Event :=
  match a with
  | AlertAlert title msg => [Alerted title msg]
  | _ => []
  end.

Inductive Completion (R : Type) : Type :=
| Returned (r : R)
| Uncaught (e : Supabase.Exn).
Arguments Uncaught {R} e.

Record Run (R : Type) : Type := {
  completion : Completion R;
  final : FormState;
  events : list Event
}.

(** One invocation run to completion against a client. *)
Fixpoint run {R : Type} (cl : Supabase.Client) (p : Async R) (s : FormState)
  : Run R :=
  match p with
  | Return r => {| completion := Returned r; final := s; events := [] |}
  | Throw e => {| completion := Uncaught e; final := s; events := [] |}
  | Perform a k =>
      let r := run cl k (update a s) in
      {| completion := completion r; final := final r;
         events := shown a ++ events r |}
  | Await q k =>
      let r := run cl (k (Supabase.send cl q)) s in
      {| completion := completion r; final := final r;
         events := Dispatched s q :: events r |}
  end.

Fixpoint requests (l : list Event) : list Supabase.Request :=
  match l with
  | [] => []
  | Dispatched _ q :: l' => q :: requests l'
  | Alerted _ _ :: l' => requests l'
  end.

Fixpoint alerts (l : list Event) : list (jsstring * jsstring) :=
  match l with
  | [] => []
  | Dispatched _ _ :: l' => alerts l'
  | Alerted t m :: l' => (t, m) :: alerts l'
  end.

(** [submitSignIn] and [submitSignUp] on a state. *)
Definition submitSignIn (cl : Supabase.Client) (s : FormState) : Run unit :=
  run cl (signInWithEmail (email s) (password s)) s.

Definition submitSignUp (cl : Supabase.Client) (s : FormState) : Run unit :=
  run cl (signUpWithEmail (email s) (password s)) s.

(** *** The mounted component

    The screen between events: the state cells, the continuations of
    the submit functions suspended at their [await], and what has been
    observed so far.  A user event runs its handler up to the first
    suspension point; a settled promise resumes its continuation. *)

Record Screen : Type := {
  store : FormState;
  inflight : list (Supabase.Settled -> Async unit);
  history : list Event
}.

Definition mounted : Screen :=
  {| store := initial; inflight := []; history := [] |}.

(** Runs [p] on the event loop until it returns, throws or suspends.
    A [Throw] here would be the unhandled rejection of the promise
    that the handler returned; the screen does not observe it. *)
Fixpoint resume (p : Async unit) (c : Screen) : Screen :=
  match p with
  | Return _ => c
  | Throw _ => c
  | Perform a k =>
      resume k {| store := update a (store c);
                  inflight := inflight c;
                  history := history c ++ shown a |}
  | Await q k =>
      {| store := store c;
         inflight := inflight c ++ [k];
         history := history c ++ [Dispatched (store c) q] |}
  end.

Inductive UIEvent : Type :=
| ChangeEmailText (text : jsstring)
| ChangePasswordText (text : jsstring)
| PressSignIn
| PressSignUp.

(** The handlers as the render of state [s] wires them. *)
Definition handler (s : FormState) (ev : UIEvent) : Async unit :=
  match ev with
  | ChangeEmailText text => onChangeEmailText text
  | ChangePasswordText text => onChangePasswordText text
  | PressSignIn => signInWithEmail (email s) (password s)
  | PressSignUp => signUpWithEmail (email s) (password s)
  end.

(** [editable={!loading}] on both inputs, [disabled={loading}] on both
    buttons. *)
Definition enabled (s : FormState) (ev : UIEvent) : bool :=
  match ev with
  | ChangeEmailText _ => negb (loading s)
  | ChangePasswordText _ => negb (loading s)
  | PressSignIn => negb (loading s)
  | PressSignUp => negb (loading s)
  end.

(** A user event on the screen: a disabled control does not call its
    handler. *)
Definition fire (ev : UIEvent) (c : Screen) : Screen :=
  if enabled (store c) ev then resume (handler (store c) ev) c else c.

(** The promise of the suspended continuation [k] settles with [r]. *)
Definition settle (pre post : list (Supabase.Settled -> Async unit))
           (k : Supabase.Settled -> Async unit) (r : Supabase.Settled)
           (c : Screen) : Screen :=
  resume (k r) {| store := store c;
                  inflight := pre ++ post;
                  history := history c |}.

Inductive step : Screen -> Screen -> Prop :=
| step_fire ev c : step c (fire ev c)
| step_settle c pre k post r :
    inflight c = pre ++ k :: post ->
    step c (settle pre post k r c).

Inductive reachable : Screen -> Prop :=
| reach_mounted : reachable mounted
| reach_step c c' : reachable c -> step c c' -> reachable c'.

(** The state a request was dispatched in: loading, with the error
    slot already cleared. *)
Definition dispatched_clean (e : Event) : Prop :=
  match e with
  | Dispatched s _ => loading s = true /\ error s = js ""
  | Alerted _ _ => True
  end.

(** *** Predicates of the properties *)

(** Empty or made of whitespace only. *)
Definition blank (s : jsstring) : Prop :=
  Forall (fun c => is_space c = true) s.

(** The email format in the words of the specification: no
    whitespace, exactly one [@], at least one [.] after it. *)
Definition spec_email_format (s : jsstring) : Prop :=
  Forall (fun c => is_space c = false) s /\
  count_occ N.eq_dec s 64%N = 1 /\
  exists l d, s = l ++ 64%N :: d /\ In 46%N d.

(** A run of characters that [[^\s@]+] accepts. *)
Definition plain (s : jsstring) : Prop :=
  s <> [] /\ Forall (fun c => is_space c = false /\ c <> 64%N) s.

(** The email format that [emailRegex] decides: a non-empty local
    part, [@], and a domain with a [.] that has at least one character
    on each side, none of the characters being whitespace or a second
    [@]. *)
Definition email_format (s : jsstring) : Prop :=
  exists l d t,
    s = l ++ 64%N :: d ++ 46%N :: t /\ plain l /\ plain d /\ plain t.

Definition emptyFieldsError : jsstring :=
  js "Please enter both email and password".

(** Programs that never call [setEmail] or [setPassword]. *)
Definition keeps_input_action (a : Action) : bool :=
  match a with
  | SetEmail _ => false
  | SetPassword _ => false
  | SetLoading _ => true
  | SetError _ => true
  | AlertAlert _ _ => true
  end.

Inductive keeps_input {R : Type} : Async R -> Prop :=
| ki_return r : keeps_input (Return r)
| ki_throw e : keeps_input (Throw e)
| ki_perform a k :
    keeps_input_action a = true -> keeps_input k ->
    keeps_input (Perform a k)
| ki_await q k :
    (forall r, keeps_input (k r)) -> keeps_input (Await q k).

(** The credentials that a submit in state [s] transmits: the email
    trimmed, the password as typed. *)
Definition credentials (s : FormState) : Supabase.Credentials :=
  {| Supabase.email := trim (email s); Supabase.password := password s |}.

(** The state in which an accepted submit dispatches its request. *)
Definition dispatching (s : FormState) : FormState :=
  {| email := email s; password := password s;
     loading := true; error := js "" |}.

(** A client whose two calls settle as given. *)
Definition settling (r : Supabase.Settled) : Supabase.Client :=
  {| Supabase.signInWithPassword := fun _ => r;
     Supabase.signUp := fun _ => r |}.

Definition response (s : option Supabase.Session)
           (e : option Supabase.AuthError) : Supabase.AuthResponse :=
  {| Supabase.data := {| Supabase.session := s |}; Supabase.error := e |}.

Definition networkError : jsstring :=
  js "Network error. Please check your connection.".

(** A suspended continuation that, however its promise settles, runs to
    the end without suspending again and leaves [loading] false; what
    it adds to the history is no request dispatched in an unclean
    state. *)
Definition finishing (k : Supabase.Settled -> Async unit) : Prop :=
  forall r c,
    loading (store (resume (k r) c)) = false /\
    inflight (resume (k r) c) = inflight c /\
    (Forall dispatched_clean (history c) ->
     Forall dispatched_clean (history (resume (k r) c))).

(** What holds of the screen between any two events: either nothing is
    in flight and [loading] is false, or exactly one request is in
    flight, [loading] is true and the error slot is empty. *)
Definition invariant (c : Screen) : Prop :=
  Forall dispatched_clean (history c) /\
  ((loading (store c) = false /\ inflight c = []) \/
   (loading (store c) = true /\ error (store c) = js "" /\
    exists k, inflight c = [k] /\ finishing k)).

(** *** Sample inputs *)

Definition form (e p : string) (l : bool) (err : string) : FormState :=
  {| email := js e; password := js p; loading := l; error := js err |}.
Arguments form (e p)%_string l err%_string.

(** The service accepts and returns no session. *)
Definition accepting : Supabase.Client :=
  settling (Supabase.Fulfilled (response None None)).

(** The service accepts and returns a session. *)
Definition accepting_with_session : Supabase.Client :=
  settling (Supabase.Fulfilled (response (Some Supabase.ActiveSession) None)).

(** The service reports an error with message [m]. *)
Definition refusing (m : string) : Supabase.Client :=
  settling (Supabase.Fulfilled
              (response None (Some {| Supabase.message := js m |}))).
Arguments refusing m%_string.

(** The request never reaches the service. *)
Definition unreachable : Supabase.Client :=
  settling (Supabase.Rejected (Supabase.Thrown (js "Network request failed"))).

(** The screen after typing credentials and pressing "Sign in". *)
Definition submitted : Screen :=
  fire PressSignIn
    (fire (ChangePasswordText (js "123456"))
       (fire (ChangeEmailText (js "a@b.co")) mounted)).

End Auth.

(** ** What the component returns

    The element tree that [Auth] returns for a state, with the props
    the source gives each element.  [null] is an element of its own, as
    in React; a handler prop holds the function it is bound to. *)

Module Render.

Import Async Auth.

Record TextInputProps : Type := {
  inputClassName : jsstring;
  onChangeText : jsstring -> Async unit;
  value : jsstring;
  placeholder : jsstring;
  secureTextEntry : option bool;
  autoCapitalize : jsstring;
  keyboardType : option jsstring;
  editable : bool
}.

Set Warnings "-register-all".
Inductive Element : Type :=
| Null
| KeyboardAvoidingView (behavior : jsstring) (children : list Element)
| SafeAreaView (className : jsstring) (children : list Element)
| View (className : jsstring) (children : list Element)
| Text (className : jsstring) (content : jsstring)
| TextInput (props : TextInputProps)
| Pressable (className : jsstring) (onPress : Async unit) (disabled : bool)
            (children : list Element)
| ActivityIndicator (color : jsstring).

(** The [return (...)] of [Auth], for [Platform.OS === os]. *)
Definition render (os : jsstring) (s : FormState) : Element :=
  KeyboardAvoidingView
    (if strict_eq os (js "ios") then js "padding" else js "height")
    [SafeAreaView (js "flex justify-center px-4 gap-6")
       [View (js "mb-4")
          [Text (js "text-2xl font-bold text-gray-800 mb-4")
             (js "Authentication");
           (if truthy (error s)
            then View (js "bg-red-100 p-3 rounded-md mb-4")
                   [Text (js "text-red-700") (error s)]
            else Null);
           View (js "mb-4")
             [Text (js "text-sm font-medium text-gray-700 mb-1") (js "Email");
              TextInput
                {| inputClassName :=
                     js "border border-gray-300 rounded-md px-4 py-2 text-base";
                   onChangeText := onChangeEmailText;
                   value := email s;
                   placeholder := js "email@address.com";
                   secureTextEntry := None;
                   autoCapitalize := js "none";
                   keyboardType := Some (js "email-address");
                   editable := negb (loading s) |}];
           View (js "mb-4")
             [Text (js "text-sm font-medium text-gray-700 mb-1")
                (js "Password");
              TextInput
                {| inputClassName :=
                     js "border border-gray-300 rounded-md px-4 py-2 text-base";
                   onChangeText := onChangePasswordText;
                   value := password s;
                   placeholder := js "Password";
                   secureTextEntry := Some true;
                   autoCapitalize := js "none";
                   keyboardType := None;
                   editable := negb (loading s) |}];
           View (js "space-y-4")
             [Pressable
                (js "bg-blue-500 rounded-md py-3 " ++
                 (if loading s then js "opacity-50"
                  else js "active:opacity-80"))
                (signInWithEmail (email s) (password s))
                (loading s)
                [if loading s
                 then ActivityIndicator (js "#fff")
                 else Text (js "text-center text-white font-medium text-base")
                        (js "Sign in")];
              Pressable
                (js "bg-green-500 rounded-md py-3 " ++
                 (if loading s then js "opacity-50"
                  else js "active:opacity-80"))
                (signUpWithEmail (email s) (password s))
                (loading s)
                [if loading s
                 then ActivityIndicator (js "#fff")
                 else Text (js "text-center text-white font-medium text-base")
                        (js "Sign up")]]]]].

(** An element and everything below it, in document order. *)
Fixpoint flatten (e : Element) : list Element :=
  e :: match e with
       | KeyboardAvoidingView _ cs => flat_map flatten cs
       | SafeAreaView _ cs => flat_map flatten cs
       | View _ cs => flat_map flatten cs
       | Pressable _ _ _ cs => flat_map flatten cs
       | _ => []
       end.

(** The buttons of a tree: handler and [disabled], in document order. *)
Definition pressables (e : Element) : list (Async unit * bool) :=
  flat_map (fun x => match x with
                     | Pressable _ h d _ => [(h, d)]
                     | _ => []
                     end) (flatten e).

(** The text inputs of a tree, in document order. *)
Definition inputs (e : Element) : list TextInputProps :=
  flat_map (fun x => match x with TextInput p => [p] | _ => [] end) (flatten e).


(** The texts a tree shows in the class of the error message. *)
Definition banners (e : Element) : list jsstring :=
  flat_map (fun x => match x with
                     | Text cn m =>
                         if strict_eq cn (js "text-red-700") then [m] else []
                     | _ => []
                     end) (flatten e).

(** A press on the [n]th button: its handler, unless it is disabled. *)
Definition press (n : nat) (e : Element) : option (Async unit) :=
  match nth_error (pressables e) n with
  | Some (h, d) => if d then None else Some h
  | None => None
  end.

(** Typing [text] into the [n]th input: its handler applied to the
    text, unless the input is not editable. *)
Definition changeText (n : nat) (text : jsstring) (e : Element)
  : option (Async unit) :=
  match nth_error (inputs e) n with
  | Some p => if editable p then Some (onChangeText p text) else None
  | None => None
  end.

(** A user event as an interaction with the tree: the email input and
    the sign-in button come first in the document. *)
Definition interact (ev : UIEvent) (e : Element) : option (Async unit) :=
  match ev with
  | ChangeEmailText text => changeText 0 text e
  | ChangePasswordText text => changeText 1 text e
  | PressSignIn => press 0 e
  | PressSignUp => press 1 e
  end.

End Render.

(** ** Predicates of further properties *)

Module More.

Import Async Auth.

(** No whitespace at either end. *)
Definition no_outer_space (s : jsstring) : Prop :=
  (forall c t, s = c :: t -> is_space c = false) /\
  (forall c t, s = t ++ [c] -> is_space c = false).

(** The validation of [signUpWithEmail] as one condition. *)
Definition signUp_accepts (e p : jsstring) : bool :=
  truthy e && truthy p && RegExp.test emailRegex e
  && negb (List.length p <? 6)%nat.

(** Every suspended continuation leaves the inputs alone. *)
Definition inflight_keeps_input (c : Screen) : Prop :=
  Forall (fun k => forall r, keeps_input (k r)) (inflight c).

(** The screen once a run [r] that started on screen [c] is over. *)
Definition landed (r : Run unit) (c : Screen) : Screen :=
  {| store := final r; inflight := []; history := history c ++ events r |}.

(** The screen after typing credentials, before any press. *)
Definition typed : Screen :=
  fire (ChangePasswordText (js "123456"))
    (fire (ChangeEmailText (js "a@b.co")) mounted).

End More.

(** * Properties *)

Unset Implicit Arguments.

(** ** Facts about strings *)

Module JsStringFacts.

Lemma strict_eq_spec a b : strict_eq a b = true <-> a = b.
Proof.
  revert b; induction a as [|x a IH]; intros [|y b]; simpl;
    try (split; [discriminate | congruence]); try tauto.
  rewrite andb_true_iff, N.eqb_eq, IH. split.
  - intros [-> ->]; reflexivity.
  - intros E; injection E; auto.
Qed.

Lemma strict_eq_refl a : strict_eq a a = true.
Proof. apply strict_eq_spec; reflexivity. Qed.

Lemma strict_eq_neq a b : a <> b -> strict_eq a b = false.
Proof.
  intros H. destruct (strict_eq a b) eqn:E; [|reflexivity].
  apply strict_eq_spec in E. contradiction.
Qed.

Lemma truthy_false s : truthy s = false <-> s = [].
Proof. destruct s; simpl; split; congruence. Qed.

Lemma truthy_true s : truthy s = true <-> s <> [].
Proof. destruct s; simpl; split; congruence. Qed.

Lemma or_else_nonempty a b : a <> [] -> or_else a b = a.
Proof. destruct a; [congruence | reflexivity]. Qed.

End JsStringFacts.

(** ** The matcher decides the language of a pattern *)

Module RegExpFacts.

Import RegExp.

Lemma matches_seq_inv p q s :
  matches (Seq p q) s ->
  exists s1 s2, s = s1 ++ s2 /\ matches p s1 /\ matches q s2.
Proof. intros H; inversion H; subst; eauto. Qed.

Lemma matches_alt_inv p q s :
  matches (Alt p q) s -> matches p s \/ matches q s.
Proof. intros H; inversion H; subst; auto. Qed.

Lemma matches_char_inv c s : matches (Char c) s -> s = [c].
Proof. intros H; inversion H; reflexivity. Qed.

Lemma matches_notin_inv cls s :
  matches (NotIn cls) s -> exists c, s = [c] /\ in_class cls c = false.
Proof. intros H; inversion H; subst; eauto. Qed.

Lemma nullable_matches p : nullable p = true -> matches p [].
Proof.
  induction p; simpl; intros H; try discriminate.
  - constructor.
  - apply andb_true_iff in H as [H1 H2].
    apply (@m_seq p1 p2 [] []); auto.
  - apply orb_true_iff in H as [H|H];
      [apply m_alt_l | apply m_alt_r]; auto.
  - constructor.
Qed.

Lemma matches_nullable p s : matches p s -> s = [] -> nullable p = true.
Proof.
  induction 1; simpl; intros E; try discriminate; auto.
  - apply app_eq_nil in E as [E1 E2]. rewrite IHmatches1, IHmatches2; auto.
  - rewrite IHmatches; auto.
  - rewrite IHmatches; auto using orb_true_r.
Qed.

Lemma deriv_sound c p : forall s, matches (deriv c p) s -> matches p (c :: s).
Proof.
  induction p; simpl; intros s H.
  - inversion H.
  - inversion H.
  - destruct (N.eqb_spec c c0); inversion H; subst. constructor.
  - destruct (in_class cls c) eqn:E; inversion H; subst.
    constructor; assumption.
  - destruct (nullable p1) eqn:E.
    + apply matches_alt_inv in H as [H|H].
      * apply matches_seq_inv in H as (s1 & s2 & -> & H1 & H2).
        apply (@m_seq p1 p2 (c :: s1) s2); auto.
      * apply (@m_seq p1 p2 [] (c :: s)); auto using nullable_matches.
    + apply matches_seq_inv in H as (s1 & s2 & -> & H1 & H2).
      apply (@m_seq p1 p2 (c :: s1) s2); auto.
  - apply matches_alt_inv in H as [H|H];
      [apply m_alt_l | apply m_alt_r]; auto.
  - apply matches_seq_inv in H as (s1 & s2 & -> & H1 & H2).
    apply (@m_star_cons p (c :: s1) s2); auto.
Qed.

Lemma deriv_complete c p w :
  matches p w -> forall s, w = c :: s -> matches (deriv c p) s.
Proof.
  induction 1; simpl; intros u E; try discriminate.
  - injection E as E1 E2; subst. rewrite N.eqb_refl. constructor.
  - injection E as E1 E2; subst. rewrite H. constructor.
  - destruct s as [|x s].
    + simpl in E. subst t.
      rewrite (matches_nullable _ _ H eq_refl).
      apply m_alt_r. auto.
    + simpl in E. injection E as E1 E2; subst.
      destruct (nullable p).
      * apply m_alt_l. constructor; auto.
      * constructor; auto.
  - apply m_alt_l; auto.
  - apply m_alt_r; auto.
  - destruct s as [|x s].
    + simpl in E. apply IHmatches2 in E. exact E.
    + simpl in E. injection E as E1 E2; subst.
      constructor; auto.
Qed.

Lemma test_spec p : forall s, test p s = true <-> matches p s.
Proof.
  intros s; revert p; induction s as [|c s IH]; intros p; simpl.
  - split; [apply nullable_matches | intros H; eapply matches_nullable; eauto].
  - rewrite IH. split.
    + apply deriv_sound.
    + intros H. eapply deriv_complete; eauto.
Qed.

Lemma matches_star_class cls s :
  matches (Star (NotIn cls)) s <-> Forall (fun c => in_class cls c = false) s.
Proof.
  split.
  - intros H. remember (Star (NotIn cls)) as p eqn:Ep.
    induction H; try discriminate.
    + constructor.
    + injection Ep as ->.
      apply matches_notin_inv in H as (c & -> & Hc).
      simpl. constructor; auto.
  - induction 1 as [|c s Hc _ IH].
    + constructor.
    + apply (@m_star_cons (NotIn cls) [c] s); [constructor|]; assumption.
Qed.

Lemma matches_plus_class cls s :
  matches (Plus (NotIn cls)) s <->
  s <> [] /\ Forall (fun c => in_class cls c = false) s.
Proof.
  unfold Plus. split.
  - intros H. apply matches_seq_inv in H as (s1 & s2 & -> & H1 & H2).
    apply matches_notin_inv in H1 as (c & -> & Hc).
    apply matches_star_class in H2. simpl.
    split; [discriminate | constructor; auto].
  - intros [Hne H]. destruct H as [|c s Hc H]; [congruence|].
    apply (@m_seq (NotIn cls) (Star (NotIn cls)) [c] s);
      [constructor; assumption | apply matches_star_class; assumption].
Qed.

End RegExpFacts.

(** ** What [emailRegex] accepts *)

Module EmailFormat.

Import RegExp RegExpFacts Auth.

Lemma in_class_part c :
  in_class [ClassSpace; ClassChar 64%N] c = false <->
  is_space c = false /\ c <> 64%N.
Proof.
  simpl. rewrite orb_false_r, orb_false_iff, N.eqb_neq. tauto.
Qed.

Lemma matches_part s : matches emailPart s <-> plain s.
Proof.
  unfold emailPart, plain. rewrite matches_plus_class.
  split; intros [Hne H]; split; auto;
    eapply Forall_impl; try exact H; intros c Hc; apply in_class_part; exact Hc.
Qed.

Lemma emailRegex_matches s : matches emailRegex s <-> email_format s.
Proof.
  unfold emailRegex, email_format. split.
  - intros H.
    apply matches_seq_inv in H as (l & r1 & -> & Hl & H).
    apply matches_seq_inv in H as (a & r2 & -> & Ha & H).
    apply matches_seq_inv in H as (d & r3 & -> & Hd & H).
    apply matches_seq_inv in H as (b & t & -> & Hb & Ht).
    apply matches_char_inv in Ha, Hb. subst a b.
    exists l, d, t. rewrite <- !matches_part. auto.
  - intros (l & d & t & -> & Hl & Hd & Ht).
    apply matches_part in Hl, Hd, Ht.
    apply (@m_seq emailPart _ l (64%N :: d ++ 46%N :: t)); [assumption|].
    apply (@m_seq (Char 64%N) _ [64%N] (d ++ 46%N :: t)); [constructor|].
    apply (@m_seq emailPart _ d (46%N :: t)); [assumption|].
    apply (@m_seq (Char 46%N) emailPart [46%N] t); [constructor | assumption].
Qed.

(** [emailRegex.test] decides [email_format]. *)
Lemma emailRegex_test s : test emailRegex s = true <-> email_format s.
Proof. rewrite test_spec. apply emailRegex_matches. Qed.

Lemma emailRegex_test_false s : test emailRegex s = false <-> ~ email_format s.
Proof.
  rewrite <- emailRegex_test. destruct (test emailRegex s); split; congruence.
Qed.

Lemma plain_no_space s : plain s -> Forall (fun c => is_space c = false) s.
Proof. intros [_ H]. eapply Forall_impl; [|exact H]. simpl; tauto. Qed.

Lemma plain_no_at s : plain s -> count_occ N.eq_dec s 64%N = 0.
Proof.
  intros [_ H]. apply count_occ_not_In. intros Hin.
  rewrite Forall_forall in H. apply H in Hin. tauto.
Qed.

(** Every accepted email has the three properties that the
    specification names. *)
Lemma email_format_spec s : email_format s -> spec_email_format s.
Proof.
  intros (l & d & t & -> & Hl & Hd & Ht). repeat split.
  - apply Forall_app; split; [apply plain_no_space; assumption|].
    constructor; [reflexivity|].
    apply Forall_app; split; [apply plain_no_space; assumption|].
    constructor; [reflexivity | apply plain_no_space; assumption].
  - rewrite count_occ_app, (plain_no_at _ Hl). simpl.
    rewrite count_occ_app, (plain_no_at _ Hd). simpl.
    rewrite (plain_no_at _ Ht). reflexivity.
  - exists l, (d ++ 46%N :: t). split; [reflexivity|].
    apply in_or_app. right. left. reflexivity.
Qed.

End EmailFormat.

(** ** The submit functions, one invocation at a time *)

Module SubmitFacts.

Import Async Auth JsStringFacts EmailFormat.

(** *** Frame: the inputs are never written *)

Lemma keeps_input_bind {A B : Type} (m : Async A) (f : A -> Async B) :
  keeps_input m -> (forall a, keeps_input (f a)) -> keeps_input (bind m f).
Proof.
  intros Hm Hf. induction Hm; simpl; auto; constructor; auto.
Qed.

Lemma keeps_input_try_catch {R : Type} (body : Async R) handler :
  keeps_input body -> (forall e, keeps_input (handler e)) ->
  keeps_input (try_catch body handler).
Proof.
  intros Hb Hh. induction Hb; simpl; auto; constructor; auto.
Qed.

Lemma keeps_input_finally {R : Type} (body : Async R) cleanup :
  keeps_input body -> keeps_input cleanup ->
  keeps_input (finally body cleanup).
Proof.
  intros Hb Hc. induction Hb; simpl.
  - apply keeps_input_bind; [assumption | intros; constructor].
  - apply keeps_input_bind; [assumption | intros; constructor].
  - constructor; auto.
  - constructor; auto.
Qed.

Lemma keeps_input_perform a :
  keeps_input_action a = true -> keeps_input (perform a).
Proof. intros H. constructor; [assumption | constructor]. Qed.

Lemma keeps_input_await q : keeps_input (await q).
Proof. constructor. intros [v|e]; constructor. Qed.

Ltac frame_cases :=
  repeat match goal with
    | |- keeps_input (if ?b then _ else _) => destruct b
    | |- keeps_input (match ?x with Some _ => _ | None => _ end) => destruct x
    | |- keeps_input (setError _) => apply keeps_input_perform; reflexivity
    | |- keeps_input (setLoading _) => apply keeps_input_perform; reflexivity
    | |- keeps_input (alert _ _) => apply keeps_input_perform; reflexivity
    | |- keeps_input (Return _) => constructor
    | |- keeps_input (bind _ _) => apply keeps_input_bind; [|intros]
    | |- keeps_input (try_catch _ _) => apply keeps_input_try_catch; [|intros]
    | |- keeps_input (finally _ _) => apply keeps_input_finally
    | |- keeps_input (await _) => apply keeps_input_await
    end.

Lemma signInWithEmail_keeps_input e p : keeps_input (signInWithEmail e p).
Proof. unfold signInWithEmail. frame_cases. Qed.

Lemma signUpWithEmail_keeps_input e p : keeps_input (signUpWithEmail e p).
Proof. unfold signUpWithEmail. frame_cases. Qed.

Lemma update_keeps_input a s :
  keeps_input_action a = true ->
  email (update a s) = email s /\ password (update a s) = password s.
Proof. destruct a; simpl; intros H; try discriminate; auto. Qed.

Lemma run_keeps_input {R : Type} cl (p : Async R) :
  keeps_input p ->
  forall s, email (final (run cl p s)) = email s /\
            password (final (run cl p s)) = password s.
Proof.
  induction 1 as [r|e|a k Ha _ IH|q k _ IH]; intros s; simpl; auto.
  destruct (IH (update a s)) as [E1 E2].
  destruct (update_keeps_input a s Ha) as [E3 E4].
  split; congruence.
Qed.

(** *** Entering the two functions *)

Lemma signIn_empty cl s :
  email s = [] \/ password s = [] ->
  submitSignIn cl s =
  {| completion := Returned tt;
     final := update (SetError emptyFieldsError) s;
     events := [] |}.
Proof.
  unfold submitSignIn, signInWithEmail.
  intros [E|E]; rewrite E; simpl truthy;
    [|rewrite orb_true_r]; reflexivity.
Qed.

Lemma signUp_empty cl s :
  email s = [] \/ password s = [] ->
  submitSignUp cl s =
  {| completion := Returned tt;
     final := update (SetError emptyFieldsError) s;
     events := [] |}.
Proof.
  unfold submitSignUp, signUpWithEmail.
  intros [E|E]; rewrite E; simpl truthy;
    [|rewrite orb_true_r]; reflexivity.
Qed.

Ltac enter_signIn He Hp :=
  unfold submitSignIn, signInWithEmail;
  rewrite (proj2 (truthy_true _) He), (proj2 (truthy_true _) Hp);
  cbn -[js trim strict_eq].

Ltac enter_signUp He Hp Hf Hl :=
  unfold submitSignUp, signUpWithEmail;
  rewrite (proj2 (truthy_true _) He), (proj2 (truthy_true _) Hp), Hf,
    (proj2 (Nat.ltb_ge _ _) Hl);
  cbn -[js trim strict_eq or_else].

Ltac settle_with Hr :=
  match goal with
  | s : FormState |- _ =>
      change {| Supabase.email := trim (email s);
                Supabase.password := password s |} with (credentials s)
  end;
  rewrite Hr; cbn -[js trim strict_eq or_else].

(** *** Validation *)

(** C2, amended: an empty email or an empty password makes both
    submit functions stop with the empty-fields error, [loading] left
    as it was (so [false] whenever the submit starts from
    [loading == false]) and no request sent. *)
Theorem empty_field_rejected cl s :
  email s = [] \/ password s = [] ->
  (error (final (submitSignIn cl s)) = emptyFieldsError /\
   loading (final (submitSignIn cl s)) = loading s /\
   requests (events (submitSignIn cl s)) = []) /\
  (error (final (submitSignUp cl s)) = emptyFieldsError /\
   loading (final (submitSignUp cl s)) = loading s /\
   requests (events (submitSignUp cl s)) = []).
Proof.
  intros H. rewrite (signIn_empty cl s H), (signUp_empty cl s H).
  simpl. repeat split; reflexivity.
Qed.

Lemma empty_field_rejected_witness :
  (email (form "" "secret" false "stale") = [] \/
   password (form "" "secret" false "stale") = []) /\
  error (final (submitSignIn accepting (form "" "secret" false "stale")))
    = emptyFieldsError /\
  loading (final (submitSignIn accepting (form "" "secret" false "stale")))
    = false /\
  requests (events (submitSignIn accepting (form "" "secret" false "stale")))
    = [].
Proof.
  assert (H : email (form "" "secret" false "stale") = [] \/
              password (form "" "secret" false "stale") = [])
    by (left; reflexivity).
  split; [exact H|].
  exact (proj1 (empty_field_rejected accepting _ H)).
Defined.

(** C2 as stated fails: a one-space email is not empty for [!email], so
    sign-in sends a request (with the email trimmed to the empty string)
    and the empty-fields error is not shown. *)
Lemma whitespace_email_is_submitted :
  blank (email (form " " "secret" false "")) /\
  requests (events (submitSignIn accepting (form " " "secret" false ""))) =
    [Supabase.SignInWithPassword
       {| Supabase.email := []; Supabase.password := js "secret" |}] /\
  error (final (submitSignIn accepting (form " " "secret" false ""))) = [] /\
  error (final (submitSignIn accepting (form " " "secret" false "")))
    <> emptyFieldsError.
Proof.
  split; [|split; [|split]].
  - repeat constructor.
  - reflexivity.
  - reflexivity.
  - discriminate.
Qed.

(** After the request has settled, either function finishes without
    sending anything more, whatever the answer. *)
Ltac settle_any s :=
  change {| Supabase.email := trim (email s);
            Supabase.password := password s |} with (credentials s);
  match goal with
  | |- context [match ?x with Supabase.Fulfilled _ => _
                            | Supabase.Rejected _ => _ end] =>
      destruct x as [[[[?|]] [[?]|]]|?]
  end;
  cbn -[js trim strict_eq or_else];
  repeat match goal with
    | |- context [if strict_eq ?a ?b then _ else _] =>
        destruct (strict_eq a b); cbn -[js trim strict_eq or_else]
    end.

(** C3, amended: sign-up validation checks emptiness, then the email
    format that [emailRegex] decides ([email_format]), then the length
    of the password, and reports the first check that fails; when all
    three pass, exactly one request is sent, with the trimmed email and
    the password as typed. *)
Theorem signUp_validation_order cl s :
  (email s = [] \/ password s = [] ->
   error (final (submitSignUp cl s)) = emptyFieldsError /\
   requests (events (submitSignUp cl s)) = []) /\
  (email s <> [] -> password s <> [] -> ~ email_format (email s) ->
   error (final (submitSignUp cl s)) = js "Please enter a valid email address" /\
   requests (events (submitSignUp cl s)) = []) /\
  (email s <> [] -> password s <> [] -> email_format (email s) ->
   List.length (password s) < 6 ->
   error (final (submitSignUp cl s))
     = js "Password must be at least 6 characters long" /\
   requests (events (submitSignUp cl s)) = []) /\
  (email s <> [] -> password s <> [] -> email_format (email s) ->
   6 <= List.length (password s) ->
   requests (events (submitSignUp cl s)) = [Supabase.SignUp (credentials s)]).
Proof.
  split; [|split; [|split]].
  - intros H. rewrite (signUp_empty cl s H). split; reflexivity.
  - intros He Hp Hf. apply emailRegex_test_false in Hf.
    unfold submitSignUp, signUpWithEmail.
    rewrite (proj2 (truthy_true _) He), (proj2 (truthy_true _) Hp), Hf.
    split; reflexivity.
  - intros He Hp Hf Hl. apply emailRegex_test in Hf.
    unfold submitSignUp, signUpWithEmail.
    rewrite (proj2 (truthy_true _) He), (proj2 (truthy_true _) Hp), Hf,
      (proj2 (Nat.ltb_lt _ _) Hl).
    split; reflexivity.
  - intros He Hp Hf Hl. apply emailRegex_test in Hf.
    enter_signUp He Hp Hf Hl.
    settle_any s; reflexivity.
Qed.

Lemma signUp_validation_order_witness :
  (error (final (submitSignUp accepting (form "" "123456" false "")))
     = emptyFieldsError) /\
  (error (final (submitSignUp accepting (form "not-an-email" "123456" false "")))
     = js "Please enter a valid email address") /\
  (error (final (submitSignUp accepting (form "a@b.co" "12345" false "")))
     = js "Password must be at least 6 characters long") /\
  (requests (events (submitSignUp accepting (form "a@b.co" "123456" false "")))
     = [Supabase.SignUp (credentials (form "a@b.co" "123456" false ""))]).
Proof.
  split; [|split; [|split]].
  - apply (signUp_validation_order accepting (form "" "123456" false "")).
    left; reflexivity.
  - apply (signUp_validation_order accepting
             (form "not-an-email" "123456" false "")).
    + discriminate.
    + discriminate.
    + apply emailRegex_test_false. reflexivity.
  - apply (signUp_validation_order accepting (form "a@b.co" "12345" false "")).
    + discriminate.
    + discriminate.
    + apply emailRegex_test. reflexivity.
    + simpl. lia.
  - apply (signUp_validation_order accepting (form "a@b.co" "123456" false "")).
    + discriminate.
    + discriminate.
    + apply emailRegex_test. reflexivity.
    + simpl. lia.
Defined.

(** C3 as stated fails: [a@.b] has no whitespace, exactly one [@] and a
    [.] after it, and the password has six characters, yet sign-up
    rejects the email and sends nothing. *)
Lemma dot_right_after_at_is_rejected :
  spec_email_format (email (form "a@.b" "123456" false "")) /\
  6 <= List.length (password (form "a@.b" "123456" false "")) /\
  error (final (submitSignUp accepting (form "a@.b" "123456" false "")))
    = js "Please enter a valid email address" /\
  requests (events (submitSignUp accepting (form "a@.b" "123456" false "")))
    = [].
Proof.
  split; [|split; [|split]].
  - split; [|split].
    + repeat constructor.
    + reflexivity.
    + exists (js "a"), (js ".b"). split; [reflexivity | left; reflexivity].
  - simpl. lia.
  - reflexivity.
  - reflexivity.
Qed.

(** *** Outcomes of a dispatched request *)

(** C4: when the sign-in request is answered with an error, [loading]
    ends [false] and the error shown is "Incorrect email or password"
    for "Invalid login credentials", "Please verify your email first"
    for "Email not confirmed", and the generic message for every other
    message. *)
Theorem signIn_service_error cl s d m :
  email s <> [] -> password s <> [] ->
  Supabase.signInWithPassword cl (credentials s) =
    Supabase.Fulfilled
      {| Supabase.data := d;
         Supabase.error := Some {| Supabase.message := m |} |} ->
  loading (final (submitSignIn cl s)) = false /\
  (m = js "Invalid login credentials" ->
   error (final (submitSignIn cl s)) = js "Incorrect email or password") /\
  (m = js "Email not confirmed" ->
   error (final (submitSignIn cl s)) = js "Please verify your email first") /\
  (m <> js "Invalid login credentials" -> m <> js "Email not confirmed" ->
   error (final (submitSignIn cl s))
     = js "An unexpected error occurred. Please try again.").
Proof.
  intros He Hp Hr. enter_signIn He Hp. settle_with Hr.
  split; [|split; [|split]].
  - destruct (strict_eq m _); [|destruct (strict_eq m _)]; reflexivity.
  - intros ->. reflexivity.
  - intros ->. reflexivity.
  - intros N1 N2.
    rewrite (strict_eq_neq _ _ N1), (strict_eq_neq _ _ N2). reflexivity.
Qed.

Lemma signIn_service_error_witness :
  (error (final (submitSignIn (refusing "Invalid login credentials")
                   (form "a@b.co" "wrong-password" false "")))
     = js "Incorrect email or password") /\
  (error (final (submitSignIn (refusing "Email not confirmed")
                   (form "a@b.co" "wrong-password" false "")))
     = js "Please verify your email first") /\
  (error (final (submitSignIn (refusing "Database error querying schema")
                   (form "a@b.co" "wrong-password" false "")))
     = js "An unexpected error occurred. Please try again.") /\
  (loading (final (submitSignIn (refusing "Invalid login credentials")
                     (form "a@b.co" "wrong-password" false "")))
     = false).
Proof.
  split; [|split; [|split]].
  - apply (signIn_service_error (refusing "Invalid login credentials")
             (form "a@b.co" "wrong-password" false "")
             {| Supabase.session := None |} (js "Invalid login credentials"));
      [discriminate | discriminate | reflexivity | reflexivity].
  - apply (signIn_service_error (refusing "Email not confirmed")
             (form "a@b.co" "wrong-password" false "")
             {| Supabase.session := None |} (js "Email not confirmed"));
      [discriminate | discriminate | reflexivity | reflexivity].
  - apply (signIn_service_error (refusing "Database error querying schema")
             (form "a@b.co" "wrong-password" false "")
             {| Supabase.session := None |}
             (js "Database error querying schema"));
      [discriminate | discriminate | reflexivity | discriminate | discriminate].
  - apply (signIn_service_error (refusing "Invalid login credentials")
             (form "a@b.co" "wrong-password" false "")
             {| Supabase.session := None |} (js "Invalid login credentials"));
      [discriminate | discriminate | reflexivity].
Defined.

(** C7: when the sign-up request is answered with an error, the error
    shown is "An account with this email already exists" for "User
    already exists"; for any other message it is the message itself when
    that is not empty and "Sign up failed. Please try again." when it
    is. *)
Theorem signUp_service_error cl s d m :
  email s <> [] -> password s <> [] ->
  RegExp.test emailRegex (email s) = true ->
  6 <= List.length (password s) ->
  Supabase.signUp cl (credentials s) =
    Supabase.Fulfilled
      {| Supabase.data := d;
         Supabase.error := Some {| Supabase.message := m |} |} ->
  loading (final (submitSignUp cl s)) = false /\
  (m = js "User already exists" ->
   error (final (submitSignUp cl s))
     = js "An account with this email already exists") /\
  (m <> js "User already exists" -> m <> [] ->
   error (final (submitSignUp cl s)) = m) /\
  (m = [] ->
   error (final (submitSignUp cl s)) = js "Sign up failed. Please try again.").
Proof.
  intros He Hp Hf Hl Hr. enter_signUp He Hp Hf Hl. settle_with Hr.
  split; [|split; [|split]].
  - destruct (strict_eq m _); reflexivity.
  - intros ->. reflexivity.
  - intros N1 N2. rewrite (strict_eq_neq _ _ N1). cbn -[js or_else].
    apply or_else_nonempty. exact N2.
  - intros ->. reflexivity.
Qed.

Lemma signUp_service_error_witness :
  (error (final (submitSignUp (refusing "User already exists")
                   (form "a@b.co" "123456" false "")))
     = js "An account with this email already exists") /\
  (error (final (submitSignUp (refusing "Signups not allowed for this instance")
                   (form "a@b.co" "123456" false "")))
     = js "Signups not allowed for this instance") /\
  (error (final (submitSignUp (refusing "")
                   (form "a@b.co" "123456" false "")))
     = js "Sign up failed. Please try again.").
Proof.
  split; [|split].
  - apply (signUp_service_error (refusing "User already exists")
             (form "a@b.co" "123456" false "")
             {| Supabase.session := None |} (js "User already exists"));
      [discriminate | discriminate | reflexivity | simpl; lia
      | reflexivity | reflexivity].
  - apply (signUp_service_error
             (refusing "Signups not allowed for this instance")
             (form "a@b.co" "123456" false "")
             {| Supabase.session := None |}
             (js "Signups not allowed for this instance"));
      [discriminate | discriminate | reflexivity | simpl; lia
      | reflexivity | discriminate | discriminate].
  - apply (signUp_service_error (refusing "")
             (form "a@b.co" "123456" false "")
             {| Supabase.session := None |} (js ""));
      [discriminate | discriminate | reflexivity | simpl; lia
      | reflexivity | reflexivity].
Defined.

(** C5: when the awaited call of an accepted sign-in or sign-up rejects,
    the function still returns normally, with the network error shown
    and [loading] false; and [loading] ends false however the call
    settles, so the [finally] block runs on every exit of the [try]. *)
Theorem transport_failure cl s e :
  email s <> [] -> password s <> [] ->
  (Supabase.signInWithPassword cl (credentials s) = Supabase.Rejected e ->
   error (final (submitSignIn cl s)) = networkError /\
   loading (final (submitSignIn cl s)) = false /\
   completion (submitSignIn cl s) = Returned tt) /\
  (RegExp.test emailRegex (email s) = true ->
   6 <= List.length (password s) ->
   Supabase.signUp cl (credentials s) = Supabase.Rejected e ->
   error (final (submitSignUp cl s)) = networkError /\
   loading (final (submitSignUp cl s)) = false /\
   completion (submitSignUp cl s) = Returned tt) /\
  loading (final (submitSignIn cl s)) = false /\
  (RegExp.test emailRegex (email s) = true ->
   6 <= List.length (password s) ->
   loading (final (submitSignUp cl s)) = false).
Proof.
  intros He Hp. split; [|split; [|split]].
  - intros Hr. enter_signIn He Hp. settle_with Hr. repeat split.
  - intros Hf Hl Hr. enter_signUp He Hp Hf Hl. settle_with Hr. repeat split.
  - enter_signIn He Hp. settle_any s; reflexivity.
  - intros Hf Hl. enter_signUp He Hp Hf Hl. settle_any s; reflexivity.
Qed.

Lemma transport_failure_witness :
  (error (final (submitSignIn unreachable (form " a@b.co " "123456" false "old")))
     = networkError /\
   loading (final (submitSignIn unreachable (form " a@b.co " "123456" false "old")))
     = false /\
   completion (submitSignIn unreachable (form " a@b.co " "123456" false "old"))
     = Returned tt) /\
  (error (final (submitSignUp unreachable (form "a@b.co" "123456" false "old")))
     = networkError /\
   loading (final (submitSignUp unreachable (form "a@b.co" "123456" false "old")))
     = false /\
   completion (submitSignUp unreachable (form "a@b.co" "123456" false "old"))
     = Returned tt).
Proof.
  split.
  - apply (transport_failure unreachable (form " a@b.co " "123456" false "old")
             (Supabase.Thrown (js "Network request failed")));
      [discriminate | discriminate | reflexivity].
  - apply (transport_failure unreachable (form "a@b.co" "123456" false "old")
             (Supabase.Thrown (js "Network request failed")));
      [discriminate | discriminate | reflexivity | simpl; lia | reflexivity].
Defined.

(** C6: when an accepted sign-up is answered with no error and no
    session, the error slot ends empty, [loading] ends false, and the
    run raises exactly one alert, "Please check your inbox for email
    verification!", which is not written to the error slot. *)
Theorem signUp_pending_verification cl s :
  email s <> [] -> password s <> [] ->
  RegExp.test emailRegex (email s) = true ->
  6 <= List.length (password s) ->
  Supabase.signUp cl (credentials s) =
    Supabase.Fulfilled (response None None) ->
  error (final (submitSignUp cl s)) = js "" /\
  loading (final (submitSignUp cl s)) = false /\
  alerts (events (submitSignUp cl s)) =
    [(js "Verification Needed",
      js "Please check your inbox for email verification!")].
Proof.
  intros He Hp Hf Hl Hr. enter_signUp He Hp Hf Hl. settle_with Hr.
  repeat split.
Qed.

Lemma signUp_pending_verification_witness :
  error (final (submitSignUp accepting (form "a@b.co" "123456" false "old")))
    = js "" /\
  loading (final (submitSignUp accepting (form "a@b.co" "123456" false "old")))
    = false /\
  alerts (events (submitSignUp accepting (form "a@b.co" "123456" false "old"))) =
    [(js "Verification Needed",
      js "Please check your inbox for email verification!")].
Proof.
  apply (signUp_pending_verification accepting
           (form "a@b.co" "123456" false "old"));
    [discriminate | discriminate | reflexivity | simpl; lia | reflexivity].
Defined.

(** With a session in the answer, sign-up raises no alert. *)
Lemma signUp_with_session_is_silent :
  alerts (events (submitSignUp accepting_with_session
                    (form "a@b.co" "123456" false ""))) = [] /\
  final (submitSignUp accepting_with_session
           (form "a@b.co" "123456" false "")) =
    form "a@b.co" "123456" false "".
Proof. split; reflexivity. Qed.

(** *** The input handlers and the frame of the submit functions *)

(** C9: [onChangeText] of either input stores the text in its field,
    empties the error slot and touches nothing else, whatever the state
    before; running it a second time changes nothing more. *)
Theorem onChangeText_clears_error cl s text :
  final (run cl (onChangeEmailText text) s) =
    {| email := text; password := password s;
       loading := loading s; error := js "" |} /\
  final (run cl (onChangePasswordText text) s) =
    {| email := email s; password := text;
       loading := loading s; error := js "" |} /\
  final (run cl (onChangeEmailText text)
           (final (run cl (onChangeEmailText text) s)))
    = final (run cl (onChangeEmailText text) s) /\
  final (run cl (onChangePasswordText text)
           (final (run cl (onChangePasswordText text) s)))
    = final (run cl (onChangePasswordText text) s) /\
  events (run cl (onChangeEmailText text) s) = [] /\
  events (run cl (onChangePasswordText text) s) = [].
Proof. repeat split. Qed.

(** C10: whatever path a submit takes, the [email] and [password] fields
    are the same after it as before: the trimmed email goes into the
    request only. *)
Theorem submit_keeps_inputs cl s :
  email (final (submitSignIn cl s)) = email s /\
  password (final (submitSignIn cl s)) = password s /\
  email (final (submitSignUp cl s)) = email s /\
  password (final (submitSignUp cl s)) = password s.
Proof.
  destruct (run_keeps_input cl _ (signInWithEmail_keeps_input
                                    (email s) (password s)) s) as [E1 E2].
  destruct (run_keeps_input cl _ (signUpWithEmail_keeps_input
                                    (email s) (password s)) s) as [E3 E4].
  auto.
Qed.

(** Whatever state a submit function is invoked in, a request it sends
    is sent after [setLoading(true)] and [setError('')]. *)
Lemma submit_dispatches_clean cl s :
  Forall dispatched_clean (events (submitSignIn cl s)) /\
  Forall dispatched_clean (events (submitSignUp cl s)).
Proof.
  split.
  - unfold submitSignIn, signInWithEmail.
    destruct (negb (truthy (email s)) || negb (truthy (password s)));
      cbn -[js trim strict_eq or_else]; [constructor|].
    constructor; [split; reflexivity|].
    settle_any s; repeat constructor.
  - unfold submitSignUp, signUpWithEmail.
    destruct (negb (truthy (email s)) || negb (truthy (password s)));
      [|destruct (negb (RegExp.test emailRegex (email s)));
        [|destruct (List.length (password s) <? 6)%nat]];
      cbn -[js trim strict_eq or_else]; try constructor.
    + split; reflexivity.
    + settle_any s; repeat constructor.
Qed.

End SubmitFacts.

(** ** The mounted component, event by event *)

Module ScreenFacts.

Import Async Auth JsStringFacts EmailFormat.

Lemma Forall_clean_snoc l e :
  Forall dispatched_clean l -> dispatched_clean e ->
  Forall dispatched_clean (l ++ [e]).
Proof. intros Hl He. apply Forall_app. split; [assumption | constructor; auto]. Qed.

Ltac finish_cases :=
  let r := fresh "r" in
  let c' := fresh "c" in
  intros r c'; destruct r as [[[[?|]] [[?]|]]|?];
  cbn -[js trim strict_eq or_else];
  repeat match goal with
    | |- context [if strict_eq ?a ?b then _ else _] =>
        destruct (strict_eq a b); cbn -[js trim strict_eq or_else]
    end;
  rewrite ?app_nil_r;
  (split;
   [ reflexivity
   | split;
     [ reflexivity
     | intros H;
       first [ assumption
             | apply Forall_clean_snoc; [assumption | exact I] ] ] ]).

(** What pressing "Sign in" does to an idle screen. *)
Lemma resume_signIn c e p :
  resume (signInWithEmail e p) c =
    {| store := update (SetError emptyFieldsError) (store c);
       inflight := inflight c; history := history c |} \/
  exists q k,
    finishing k /\
    resume (signInWithEmail e p) c =
      {| store := dispatching (store c);
         inflight := inflight c ++ [k];
         history := history c ++ [Dispatched (dispatching (store c)) q] |}.
Proof.
  unfold signInWithEmail.
  destruct (negb (truthy e) || negb (truthy p)).
  - left. cbn -[js]. rewrite app_nil_r. reflexivity.
  - right. cbn -[js trim strict_eq]. rewrite !app_nil_r.
    eexists _, _. split; [|reflexivity].
    finish_cases.
Qed.

(** What pressing "Sign up" does to an idle screen. *)
Lemma resume_signUp c e p :
  (exists m,
     resume (signUpWithEmail e p) c =
       {| store := update (SetError m) (store c);
          inflight := inflight c; history := history c |}) \/
  exists q k,
    finishing k /\
    resume (signUpWithEmail e p) c =
      {| store := dispatching (store c);
         inflight := inflight c ++ [k];
         history := history c ++ [Dispatched (dispatching (store c)) q] |}.
Proof.
  unfold signUpWithEmail.
  destruct (negb (truthy e) || negb (truthy p));
    [|destruct (negb (RegExp.test emailRegex e));
      [|destruct (List.length p <? 6)%nat]].
  1-3: left; eexists; cbn -[js]; rewrite app_nil_r; reflexivity.
  right. cbn -[js trim strict_eq or_else]. rewrite !app_nil_r.
  eexists _, _. split; [|reflexivity].
  finish_cases.
Qed.

Lemma invariant_mounted : invariant mounted.
Proof. split; [constructor | left; split; reflexivity]. Qed.

(** A handler that only rewrites a field and the error slot keeps an
    idle screen idle. *)
Lemma invariant_fire c ev : invariant c -> invariant (fire ev c).
Proof.
  intros [Hh Hs]. unfold fire.
  destruct Hs as [[Hl Hi]|[Hl Hrest]];
    [|replace (enabled (store c) ev) with false
        by (destruct ev; simpl; rewrite Hl; reflexivity);
      split; [assumption | right; split; assumption]].
  replace (enabled (store c) ev) with true
    by (destruct ev; simpl; rewrite Hl; reflexivity).
  destruct ev as [text|text| |]; simpl handler.
  - cbn -[js]. rewrite !app_nil_r. split; [assumption|]. left. auto.
  - cbn -[js]. rewrite !app_nil_r. split; [assumption|]. left. auto.
  - destruct (resume_signIn c (email (store c)) (password (store c)))
      as [E|(q & k & Hk & E)]; rewrite E; clear E.
    + split; [assumption|]. left. auto.
    + split.
      * apply Forall_clean_snoc; [assumption | split; reflexivity].
      * right. simpl. rewrite Hi. repeat split. exists k. auto.
  - destruct (resume_signUp c (email (store c)) (password (store c)))
      as [(m & E)|(q & k & Hk & E)]; rewrite E; clear E.
    + split; [assumption|]. left. auto.
    + split.
      * apply Forall_clean_snoc; [assumption | split; reflexivity].
      * right. simpl. rewrite Hi. repeat split. exists k. auto.
Qed.

Lemma invariant_settle c pre k post r :
  invariant c -> inflight c = pre ++ k :: post ->
  invariant (settle pre post k r c).
Proof.
  intros [Hh Hs] E. unfold settle.
  destruct Hs as [[_ Hi]|(_ & _ & k0 & Hi & Hk)]; rewrite Hi in E.
  - destruct pre; discriminate E.
  - destruct pre as [|x pre].
    + simpl in E. injection E as E1 E2. subst k0 post.
      destruct (Hk r {| store := store c; inflight := []; history := history c |})
        as (Hl & Hin & Hhist).
      split; [apply Hhist; assumption|]. left. split; assumption.
    + simpl in E. injection E as _ E2. destruct pre; discriminate E2.
Qed.

Lemma invariant_step c c' : invariant c -> step c c' -> invariant c'.
Proof.
  intros Hc Hstep. destruct Hstep.
  - apply invariant_fire; assumption.
  - apply invariant_settle; assumption.
Qed.

Lemma reachable_invariant c : reachable c -> invariant c.
Proof.
  induction 1 as [|c c' _ IH Hstep].
  - apply invariant_mounted.
  - eapply invariant_step; eassumption.
Qed.

(** C8: a request that [signInWithEmail] or [signUpWithEmail] sends is
    dispatched in a state with [loading] true and the error slot already
    empty, whatever state the function starts in; so on every screen
    that can be reached from the mounted one, every request ever
    dispatched was dispatched in such a state, and while [loading] is
    true one request is in flight and the error slot is still empty. *)
Theorem error_cleared_before_dispatch cl s c :
  reachable c ->
  Forall dispatched_clean (events (submitSignIn cl s)) /\
  Forall dispatched_clean (events (submitSignUp cl s)) /\
  Forall dispatched_clean (history c) /\
  (loading (store c) = true ->
   error (store c) = js "" /\ exists k, inflight c = [k]).
Proof.
  intros H. destruct (reachable_invariant c H) as [Hh Hs].
  destruct (SubmitFacts.submit_dispatches_clean cl s) as [Hin Hup].
  repeat (split; [assumption|]).
  intros Hl. destruct Hs as [[Hl' _]|(_ & He & k & Hi & _)].
  - congruence.
  - split; [assumption | exists k; assumption].
Qed.

Lemma submitted_reachable : reachable submitted.
Proof.
  unfold submitted.
  repeat (eapply reach_step; [|apply step_fire]).
  apply reach_mounted.
Qed.

Lemma error_cleared_before_dispatch_witness :
  history submitted =
    [Dispatched (form "a@b.co" "123456" true "")
       (Supabase.SignInWithPassword
          (credentials (form "a@b.co" "123456" true "")))] /\
  Forall dispatched_clean
    (events (submitSignIn accepting (form "a@b.co" "123456" true "stale"))) /\
  Forall dispatched_clean
    (events (submitSignUp accepting (form "a@b.co" "123456" true "stale"))) /\
  Forall dispatched_clean (history submitted) /\
  (loading (store submitted) = true ->
   error (store submitted) = js "" /\ exists k, inflight submitted = [k]).
Proof.
  split; [reflexivity|].
  exact (error_cleared_before_dispatch accepting
           (form "a@b.co" "123456" true "stale") submitted
           submitted_reachable).
Defined.

(** C1, amended: while [loading] is true both buttons are disabled, so a
    press calls neither [signInWithEmail] nor [signUpWithEmail]: the
    state, the requests in flight and everything observed stay as they
    are. *)
Theorem press_while_loading_is_dropped c :
  loading (store c) = true ->
  fire PressSignIn c = c /\ fire PressSignUp c = c.
Proof.
  intros H. unfold fire. simpl. rewrite H. split; reflexivity.
Qed.

Lemma press_while_loading_is_dropped_witness :
  loading (store submitted) = true /\
  fire PressSignIn submitted = submitted /\
  fire PressSignUp submitted = submitted.
Proof.
  split; [reflexivity|].
  apply (press_while_loading_is_dropped submitted). reflexivity.
Defined.

(** C1 as stated fails: [signInWithEmail] and [signUpWithEmail] do not
    read [loading]; invoked in a state that is already loading, each
    sends a request and ends with [loading] false. *)
Lemma submit_while_loading_sends :
  loading (form "a@b.co" "123456" true "") = true /\
  requests (events (submitSignIn accepting (form "a@b.co" "123456" true ""))) =
    [Supabase.SignInWithPassword
       (credentials (form "a@b.co" "123456" true ""))] /\
  requests (events (submitSignUp accepting (form "a@b.co" "123456" true ""))) =
    [Supabase.SignUp (credentials (form "a@b.co" "123456" true ""))] /\
  loading (final (submitSignIn accepting (form "a@b.co" "123456" true "")))
    = false /\
  loading (final (submitSignUp accepting (form "a@b.co" "123456" true "")))
    = false.
Proof. repeat split. Qed.

End ScreenFacts.

(** ** Further properties of one invocation *)

Module SubmitMore.

Import Async Auth JsStringFacts EmailFormat SubmitFacts More.

(** *** [trim] *)

Lemma trimStart_split s :
  exists pre, s = pre ++ trimStart s /\ blank pre.
Proof.
  induction s as [|c s (pre & E & B)]; simpl.
  - exists []. split; [reflexivity | constructor].
  - destruct (is_space c) eqn:Hc.
    + exists (c :: pre). split; [simpl; congruence | constructor; assumption].
    + exists []. split; [reflexivity | constructor].
Qed.

Lemma trimStart_head s c t : trimStart s = c :: t -> is_space c = false.
Proof.
  induction s as [|x s IH]; simpl; [discriminate|].
  destruct (is_space x) eqn:Hx; [exact IH|].
  intros E. injection E as E1 E2. congruence.
Qed.

Lemma trimStart_fixed s :
  (forall c t, s = c :: t -> is_space c = false) -> trimStart s = s.
Proof.
  destruct s as [|c s]; simpl; [reflexivity|].
  intros H. rewrite (H c s eq_refl). reflexivity.
Qed.

Lemma blank_rev s : blank s -> blank (rev s).
Proof. unfold blank. apply Forall_rev. Qed.

Lemma trimEnd_split s :
  exists post, s = trimEnd s ++ post /\ blank post.
Proof.
  unfold trimEnd. destruct (trimStart_split (rev s)) as (pre & E & B).
  exists (rev pre). split; [|apply blank_rev; assumption].
  rewrite <- rev_app_distr, <- E, rev_involutive. reflexivity.
Qed.

Lemma trimEnd_last s c t : trimEnd s = t ++ [c] -> is_space c = false.
Proof.
  unfold trimEnd. intros E.
  apply (f_equal (@rev _)) in E. rewrite rev_involutive, rev_app_distr in E.
  simpl in E. eapply trimStart_head; eassumption.
Qed.

Lemma trimEnd_fixed s :
  (forall c t, s = t ++ [c] -> is_space c = false) -> trimEnd s = s.
Proof.
  intros H. unfold trimEnd. rewrite trimStart_fixed.
  - apply rev_involutive.
  - intros c t E. apply (H c (rev t)).
    rewrite <- (rev_involutive s), E. reflexivity.
Qed.

Lemma trim_split s :
  exists pre post, s = pre ++ trim s ++ post /\ blank pre /\ blank post.
Proof.
  destruct (trimStart_split s) as (pre & E1 & B1).
  destruct (trimEnd_split (trimStart s)) as (post & E2 & B2).
  exists pre, post. unfold trim. rewrite <- E2. auto.
Qed.

Lemma trim_no_outer_space s : no_outer_space (trim s).
Proof.
  unfold trim. split.
  - intros c t E.
    destruct (trimEnd_split (trimStart s)) as (post & E2 & _).
    rewrite E in E2. simpl in E2.
    eapply trimStart_head; eassumption.
  - intros c t E. eapply trimEnd_last; eassumption.
Qed.

Lemma trim_fixed s : no_outer_space s -> trim s = s.
Proof.
  intros [H1 H2]. unfold trim.
  rewrite (trimStart_fixed s H1). apply trimEnd_fixed; assumption.
Qed.

Lemma trimStart_blank s : blank s -> trimStart s = [].
Proof.
  induction 1 as [|c s Hc _ IH]; simpl; [reflexivity|].
  rewrite Hc. exact IH.
Qed.

Lemma trim_empty_iff s : trim s = [] <-> blank s.
Proof.
  split.
  - intros E. destruct (trim_split s) as (pre & post & Es & B1 & B2).
    rewrite Es, E. simpl. apply Forall_app. split; assumption.
  - intros B. unfold trim. rewrite (trimStart_blank s B). reflexivity.
Qed.

Lemma no_space_no_outer_space s :
  Forall (fun c => is_space c = false) s -> no_outer_space s.
Proof.
  intros H. rewrite Forall_forall in H. split; intros c t E; apply H; subst s.
  - left; reflexivity.
  - apply in_or_app. right. left. reflexivity.
Qed.

(** *** What a submit does, whatever the client answers *)

Ltac split_signIn s :=
  unfold submitSignIn, signInWithEmail;
  destruct (truthy (email s)) eqn:?, (truthy (password s)) eqn:?;
  cbn -[js trim strict_eq or_else].

Ltac split_signUp s :=
  unfold submitSignUp, signUpWithEmail, signUp_accepts;
  destruct (truthy (email s)) eqn:?, (truthy (password s)) eqn:?,
    (RegExp.test emailRegex (email s)) eqn:?,
    (List.length (password s) <? 6)%nat eqn:?;
  cbn -[js trim strict_eq or_else].

(** X1: neither submit function ever throws: whatever the state and
    however the request settles, the promise it returns is fulfilled. *)
Theorem submit_returns_normally cl s :
  completion (submitSignIn cl s) = Returned tt /\
  completion (submitSignUp cl s) = Returned tt.
Proof.
  split.
  - split_signIn s; try reflexivity. settle_any s; reflexivity.
  - split_signUp s; try reflexivity. settle_any s; reflexivity.
Qed.

Lemma signIn_requests cl s :
  requests (events (submitSignIn cl s)) =
    (if truthy (email s) && truthy (password s)
     then [Supabase.SignInWithPassword (credentials s)] else []).
Proof. split_signIn s; try reflexivity. settle_any s; reflexivity. Qed.

Lemma signUp_requests cl s :
  requests (events (submitSignUp cl s)) =
    (if signUp_accepts (email s) (password s)
     then [Supabase.SignUp (credentials s)] else []).
Proof. split_signUp s; try reflexivity. settle_any s; reflexivity. Qed.

(** X2: sign-in sends exactly one request when both fields are
    non-empty and none otherwise, with no check of the email format or
    of the password length; sign-up sends exactly one when all its
    checks pass and none otherwise.  The request carries the trimmed
    email and the password as typed. *)
Theorem submit_requests cl s :
  requests (events (submitSignIn cl s)) =
    (if truthy (email s) && truthy (password s)
     then [Supabase.SignInWithPassword (credentials s)] else []) /\
  requests (events (submitSignUp cl s)) =
    (if signUp_accepts (email s) (password s)
     then [Supabase.SignUp (credentials s)] else []).
Proof. split; [apply signIn_requests | apply signUp_requests]. Qed.

(** X3: when the service reports no error, sign-in (with or without a
    session in the answer) and sign-up with a session end with the
    inputs as typed, [loading] false and the error slot empty, and
    raise no alert. *)
Theorem service_accepts cl s d sess :
  email s <> [] -> password s <> [] ->
  (Supabase.signInWithPassword cl (credentials s) =
     Supabase.Fulfilled {| Supabase.data := d; Supabase.error := None |} ->
   final (submitSignIn cl s) =
     {| email := email s; password := password s;
        loading := false; error := js "" |} /\
   alerts (events (submitSignIn cl s)) = []) /\
  (RegExp.test emailRegex (email s) = true ->
   6 <= List.length (password s) ->
   Supabase.signUp cl (credentials s) =
     Supabase.Fulfilled (response (Some sess) None) ->
   final (submitSignUp cl s) =
     {| email := email s; password := password s;
        loading := false; error := js "" |} /\
   alerts (events (submitSignUp cl s)) = []).
Proof.
  intros He Hp. split.
  - intros Hr. enter_signIn He Hp. settle_with Hr. split; reflexivity.
  - intros Hf Hl Hr. enter_signUp He Hp Hf Hl. settle_with Hr.
    split; reflexivity.
Qed.

Lemma service_accepts_witness :
  final (submitSignIn accepting_with_session
           (form " a@b.co " "pw" false "old")) =
    form " a@b.co " "pw" false "" /\
  alerts (events (submitSignIn accepting_with_session
                    (form " a@b.co " "pw" false "old"))) = [] /\
  final (submitSignUp accepting_with_session
           (form "a@b.co" "123456" false "old")) =
    form "a@b.co" "123456" false "".
Proof.
  assert (E1 : email (form " a@b.co " "pw" false "old") <> [])
    by discriminate.
  assert (P1 : password (form " a@b.co " "pw" false "old") <> [])
    by discriminate.
  assert (E2 : email (form "a@b.co" "123456" false "old") <> [])
    by discriminate.
  assert (P2 : password (form "a@b.co" "123456" false "old") <> [])
    by discriminate.
  destruct (service_accepts accepting_with_session
              (form " a@b.co " "pw" false "old")
              {| Supabase.session := Some Supabase.ActiveSession |}
              Supabase.ActiveSession E1 P1) as [Hin _].
  destruct (service_accepts accepting_with_session
              (form "a@b.co" "123456" false "old")
              {| Supabase.session := Some Supabase.ActiveSession |}
              Supabase.ActiveSession E2 P2) as [_ Hup].
  destruct (Hin eq_refl) as [F1 A1].
  assert (L : 6 <= List.length (password (form "a@b.co" "123456" false "old")))
    by (simpl; lia).
  destruct (Hup eq_refl L eq_refl) as [F2 _].
  split; [exact F1 | split; [exact A1 | exact F2]].
Defined.

(** X4: sign-in never raises an alert; sign-up raises at most the one
    verification alert, and raises it only when its checks passed and
    the request was answered with no error and no session. *)
Theorem alert_only_when_pending cl s :
  alerts (events (submitSignIn cl s)) = [] /\
  (alerts (events (submitSignUp cl s)) = [] \/
   alerts (events (submitSignUp cl s)) =
     [(js "Verification Needed",
       js "Please check your inbox for email verification!")]) /\
  (alerts (events (submitSignUp cl s)) <> [] ->
   signUp_accepts (email s) (password s) = true /\
   Supabase.signUp cl (credentials s) =
     Supabase.Fulfilled (response None None)).
Proof.
  split; [|split].
  - split_signIn s; try reflexivity. settle_any s; reflexivity.
  - split_signUp s; try (left; reflexivity).
    settle_any s; first [left; reflexivity | right; reflexivity].
  - split_signUp s; try (intros H; exfalso; apply H; reflexivity).
    change {| Supabase.email := trim (email s);
              Supabase.password := password s |} with (credentials s).
    destruct (Supabase.signUp cl (credentials s)) as [[[[?|]] [[?]|]]|?];
      cbn -[js trim strict_eq or_else];
      repeat match goal with
        | |- context [if strict_eq ?a ?b then _ else _] =>
            destruct (strict_eq a b); cbn -[js trim strict_eq or_else]
        end;
      intros H; try (exfalso; apply H; reflexivity).
    split; reflexivity.
Qed.

Lemma alert_only_when_pending_witness :
  signUp_accepts (email (form "a@b.co" "123456" false ""))
    (password (form "a@b.co" "123456" false "")) = true /\
  Supabase.signUp accepting (credentials (form "a@b.co" "123456" false "")) =
    Supabase.Fulfilled (response None None).
Proof.
  apply (alert_only_when_pending accepting (form "a@b.co" "123456" false "")).
  discriminate.
Defined.

(** X5: a submit never leaves an earlier error standing: the error it
    ends with, and what it sends, depend on the typed email and
    password and on the answer only, not on the error or the [loading]
    it started from; and [loading] ends false when a request was sent
    and as it was otherwise. *)
Theorem submit_forgets_old_error cl s s' :
  email s = email s' -> password s = password s' ->
  error (final (submitSignIn cl s)) = error (final (submitSignIn cl s')) /\
  error (final (submitSignUp cl s)) = error (final (submitSignUp cl s')) /\
  loading (final (submitSignIn cl s)) =
    (if truthy (email s) && truthy (password s) then false else loading s) /\
  loading (final (submitSignUp cl s)) =
    (if signUp_accepts (email s) (password s) then false else loading s).
Proof.
  intros Ee Ep. repeat split.
  - unfold submitSignIn, signInWithEmail, credentials. rewrite <- Ee, <- Ep.
    destruct (truthy (email s)), (truthy (password s));
      cbn -[js trim strict_eq or_else]; try reflexivity.
    settle_any s; reflexivity.
  - unfold submitSignUp, signUpWithEmail, credentials. rewrite <- Ee, <- Ep.
    destruct (truthy (email s)), (truthy (password s)),
      (RegExp.test emailRegex (email s)),
      (List.length (password s) <? 6)%nat;
      cbn -[js trim strict_eq or_else]; try reflexivity.
    settle_any s; reflexivity.
  - split_signIn s; try reflexivity. settle_any s; reflexivity.
  - split_signUp s; try reflexivity. settle_any s; reflexivity.
Qed.

Lemma submit_forgets_old_error_witness :
  error (final (submitSignIn (refusing "Email not confirmed")
                  (form "a@b.co" "123456" false "Incorrect email or password")))
  = error (final (submitSignIn (refusing "Email not confirmed")
                    (form "a@b.co" "123456" true ""))) /\
  error (final (submitSignUp accepting
                  (form "a@b.co" "123456" false "Network error")))
  = error (final (submitSignUp accepting (form "a@b.co" "123456" false ""))).
Proof.
  split.
  - apply (submit_forgets_old_error (refusing "Email not confirmed")
             (form "a@b.co" "123456" false "Incorrect email or password")
             (form "a@b.co" "123456" true "")); reflexivity.
  - apply (submit_forgets_old_error accepting
             (form "a@b.co" "123456" false "Network error")
             (form "a@b.co" "123456" false "")); reflexivity.
Defined.

(** *** What the request carries *)

Lemma accepted_email_no_space e :
  RegExp.test emailRegex e = true -> Forall (fun c => is_space c = false) e.
Proof.
  intros H. apply emailRegex_test in H. apply email_format_spec in H.
  apply H.
Qed.

(** X6: an email that passes the sign-up checks is sent exactly as
    typed: the format check admits no whitespace, so trimming changes
    nothing, and the request holds the stored email and password. *)
Theorem signUp_sends_email_as_typed cl s :
  signUp_accepts (email s) (password s) = true ->
  trim (email s) = email s /\
  requests (events (submitSignUp cl s)) =
    [Supabase.SignUp {| Supabase.email := email s;
                        Supabase.password := password s |}].
Proof.
  intros H. rewrite signUp_requests, H.
  unfold signUp_accepts in H.
  apply andb_true_iff in H as [H _]. apply andb_true_iff in H as [_ H].
  assert (E : trim (email s) = email s).
  { apply trim_fixed, no_space_no_outer_space, accepted_email_no_space, H. }
  split; [exact E|]. unfold credentials. rewrite E. reflexivity.
Qed.

Lemma signUp_sends_email_as_typed_witness :
  requests (events (submitSignUp unreachable
                      (form "first.last@mail.example.org" "pass word" false ""))) =
    [Supabase.SignUp {| Supabase.email := js "first.last@mail.example.org";
                        Supabase.password := js "pass word" |}].
Proof.
  apply (signUp_sends_email_as_typed unreachable
           (form "first.last@mail.example.org" "pass word" false "")).
  reflexivity.
Defined.

(** X7: the request that sign-in sends holds the password as typed and
    the typed email without the whitespace around it: that email has no
    whitespace at either end, differs from the typed one by whitespace
    before and after only, and is empty exactly when the typed email is
    all whitespace. *)
Theorem signIn_email_is_trimmed cl s c :
  In (Supabase.SignInWithPassword c) (requests (events (submitSignIn cl s))) ->
  Supabase.password c = password s /\
  no_outer_space (Supabase.email c) /\
  (exists pre post,
     email s = pre ++ Supabase.email c ++ post /\ blank pre /\ blank post) /\
  (Supabase.email c = [] <-> blank (email s)).
Proof.
  rewrite signIn_requests.
  destruct (truthy (email s) && truthy (password s)); simpl; [|tauto].
  intros [E|[]]. injection E as <-. unfold credentials; simpl.
  split; [reflexivity|]. split; [apply trim_no_outer_space|].
  split; [apply trim_split | apply trim_empty_iff].
Qed.

Lemma signIn_email_is_trimmed_witness :
  In (Supabase.SignInWithPassword
        {| Supabase.email := js "a@b.co"; Supabase.password := js " pw " |})
     (requests (events (submitSignIn accepting
                          (form "  a@b.co " " pw " false "")))) /\
  no_outer_space (js "a@b.co").
Proof.
  assert (H : In (Supabase.SignInWithPassword
                    {| Supabase.email := js "a@b.co";
                       Supabase.password := js " pw " |})
                 (requests (events (submitSignIn accepting
                                      (form "  a@b.co " " pw " false "")))))
    by (left; reflexivity).
  split; [exact H|].
  exact (proj1 (proj2 (signIn_email_is_trimmed accepting
                         (form "  a@b.co " " pw " false "") _ H))).
Defined.

(** X8: sign-up rejects every email that holds a whitespace character,
    also one that trimming would turn into a well-formed address: with
    a non-empty password it shows "Please enter a valid email address",
    sends nothing and leaves [loading] as it was. *)
Theorem signUp_rejects_whitespace cl s :
  Exists (fun c => is_space c = true) (email s) -> password s <> [] ->
  error (final (submitSignUp cl s)) = js "Please enter a valid email address" /\
  requests (events (submitSignUp cl s)) = [] /\
  loading (final (submitSignUp cl s)) = loading s.
Proof.
  intros Hw Hp.
  assert (He : email s <> []) by (intros E; rewrite E in Hw; inversion Hw).
  assert (Hf : RegExp.test emailRegex (email s) = false).
  { destruct (RegExp.test emailRegex (email s)) eqn:T; [|reflexivity].
    apply accepted_email_no_space in T.
    apply Exists_exists in Hw as (c & Hin & Hc).
    rewrite Forall_forall in T. apply T in Hin. congruence. }
  unfold submitSignUp, signUpWithEmail.
  rewrite (proj2 (truthy_true _) He), (proj2 (truthy_true _) Hp), Hf.
  repeat split.
Qed.

Lemma signUp_rejects_whitespace_witness :
  RegExp.test emailRegex (trim (email (form " a@b.co" "123456" false "")))
    = true /\
  error (final (submitSignUp accepting (form " a@b.co" "123456" false "")))
    = js "Please enter a valid email address" /\
  requests (events (submitSignUp accepting (form " a@b.co" "123456" false "")))
    = [].
Proof.
  split; [reflexivity|].
  assert (H := signUp_rejects_whitespace accepting
                 (form " a@b.co" "123456" false "")).
  split; apply H; solve [discriminate | left; reflexivity].
Defined.

End SubmitMore.

(** ** Further properties of the mounted component *)

Module ScreenMore.

Import Async Auth JsStringFacts EmailFormat SubmitFacts ScreenFacts More Render.

(** X9: on every screen that can be reached, [loading] is true exactly
    when a request is in flight, at most one request is in flight, and
    while one is, every user event (typing or pressing) is dropped. *)
Theorem loading_tracks_inflight c :
  reachable c ->
  (loading (store c) = true <-> inflight c <> []) /\
  List.length (inflight c) <= 1 /\
  (loading (store c) = true -> forall ev, fire ev c = c).
Proof.
  intros H. destruct (reachable_invariant c H) as [_ Hs]. split; [|split].
  - destruct Hs as [[Hl Hi]|(Hl & _ & k & Hi & _)]; rewrite Hl, Hi; split;
      congruence.
  - destruct Hs as [[_ Hi]|(_ & _ & k & Hi & _)]; rewrite Hi; simpl; lia.
  - intros Hl ev. unfold fire.
    replace (enabled (store c) ev) with false
      by (destruct ev; simpl; rewrite Hl; reflexivity).
    reflexivity.
Qed.

Lemma loading_tracks_inflight_witness :
  loading (store submitted) = true /\
  List.length (inflight submitted) = 1 /\
  fire (ChangeEmailText (js "x@y.zz")) submitted = submitted /\
  fire PressSignUp submitted = submitted.
Proof.
  destruct (loading_tracks_inflight submitted submitted_reachable)
    as (_ & _ & Hdrop).
  split; [reflexivity | split; [reflexivity|]].
  split; apply Hdrop; reflexivity.
Defined.

Ltac normalize_history :=
  rewrite ?app_nil_r, <- ?app_assoc; cbn -[js trim strict_eq or_else];
  rewrite ?app_nil_r.

(** X10: pressing a submit button on an idle screen and letting the
    request settle as the client answers leaves the screen as one run
    of the submit function from the screen's state does: either the
    press alone ends the run and nothing was sent, or it suspends one
    continuation, and settling that ends the run. *)
Theorem press_then_settle cl c :
  loading (store c) = false -> inflight c = [] ->
  ((requests (events (submitSignIn cl (store c))) = [] /\
    fire PressSignIn c = landed (submitSignIn cl (store c)) c) \/
   exists k,
     inflight (fire PressSignIn c) = [k] /\
     settle [] [] k
       (Supabase.signInWithPassword cl (credentials (store c)))
       (fire PressSignIn c)
     = landed (submitSignIn cl (store c)) c) /\
  ((requests (events (submitSignUp cl (store c))) = [] /\
    fire PressSignUp c = landed (submitSignUp cl (store c)) c) \/
   exists k,
     inflight (fire PressSignUp c) = [k] /\
     settle [] [] k
       (Supabase.signUp cl (credentials (store c)))
       (fire PressSignUp c)
     = landed (submitSignUp cl (store c)) c).
Proof.
  intros Hl Hi. unfold fire, landed, settle. simpl enabled. rewrite Hl.
  simpl negb. cbv iota. simpl handler. split.
  - unfold submitSignIn, signInWithEmail, credentials.
    destruct (negb (truthy (email (store c))) ||
              negb (truthy (password (store c)))).
    + left. cbn -[js]. rewrite Hi, ?app_nil_r. split; reflexivity.
    + right. cbn -[js trim strict_eq or_else]. rewrite Hi.
      eexists. split; [reflexivity|].
      destruct (Supabase.signInWithPassword cl _) as [[[[?|]] [[?]|]]|?];
        cbn -[js trim strict_eq or_else];
        repeat match goal with
          | |- context [if strict_eq ?a ?b then _ else _] =>
              destruct (strict_eq a b); cbn -[js trim strict_eq or_else]
          end;
        normalize_history; reflexivity.
  - unfold submitSignUp, signUpWithEmail, credentials.
    destruct (negb (truthy (email (store c))) ||
              negb (truthy (password (store c))));
      [|destruct (negb (RegExp.test emailRegex (email (store c))));
        [|destruct (List.length (password (store c)) <? 6)%nat]].
    1-3: left; cbn -[js]; rewrite Hi, ?app_nil_r; split; reflexivity.
    right. cbn -[js trim strict_eq or_else]. rewrite Hi.
    eexists. split; [reflexivity|].
    destruct (Supabase.signUp cl _) as [[[[?|]] [[?]|]]|?];
      cbn -[js trim strict_eq or_else];
      repeat match goal with
        | |- context [if strict_eq ?a ?b then _ else _] =>
            destruct (strict_eq a b); cbn -[js trim strict_eq or_else]
        end;
      normalize_history; reflexivity.
Qed.

Lemma press_then_settle_witness :
  loading (store typed) = false /\ inflight typed = [] /\
  exists k,
    inflight (fire PressSignIn typed) = [k] /\
    settle [] [] k
      (Supabase.signInWithPassword (refusing "Invalid login credentials")
         (credentials (store typed)))
      (fire PressSignIn typed)
    = landed (submitSignIn (refusing "Invalid login credentials")
                (store typed)) typed.
Proof.
  split; [reflexivity | split; [reflexivity|]].
  destruct (press_then_settle (refusing "Invalid login credentials") typed
              eq_refl eq_refl) as [[[H _]|H] _].
  - discriminate H.
  - exact H.
Defined.

(** X11: a user event acts on the screen as the rendered tree says: the
    email input and the password input are the first and second text
    input of the tree, "Sign in" and "Sign up" its first and second
    button, and the event runs the handler bound there unless the
    element is not editable or is disabled. *)
Theorem fire_is_interaction os ev c :
  fire ev c =
    match interact ev (render os (store c)) with
    | Some p => resume p c
    | None => c
    end.
Proof.
  unfold fire, interact, press, changeText, pressables, inputs, render.
  destruct ev; cbn -[js strict_eq signInWithEmail signUpWithEmail
                        onChangeEmailText onChangePasswordText resume];
    destruct (truthy (error (store c))), (loading (store c)); reflexivity.
Qed.


Lemma render_banners os s :
  banners (render os s) = if truthy (error s) then [error s] else [].
Proof.
  unfold banners, render.
  destruct (truthy (error s)), (loading s); reflexivity.
Qed.



(** *** The inputs change only by typing *)

Lemma resume_keeps_input p :
  keeps_input p ->
  forall c, inflight_keeps_input c ->
    email (store (resume p c)) = email (store c) /\
    password (store (resume p c)) = password (store c) /\
    inflight_keeps_input (resume p c).
Proof.
  induction 1 as [r|e|a k Ha _ IH|q k Hk _]; intros c Hc; simpl; auto.
  - destruct (IH {| store := update a (store c); inflight := inflight c;
                    history := history c ++ shown a |} Hc) as (E1 & E2 & F).
    destruct (update_keeps_input a (store c) Ha) as [E3 E4].
    simpl in E1, E2. repeat split; [congruence | congruence | exact F].
  - repeat split. unfold inflight_keeps_input. simpl.
    apply Forall_app. split; [exact Hc | constructor; [exact Hk | constructor]].
Qed.

Lemma handler_keeps_input s ev :
  keeps_input (handler s ev) \/
  (exists text, ev = ChangeEmailText text) \/
  (exists text, ev = ChangePasswordText text).
Proof.
  destruct ev; simpl; eauto.
  - left. apply signInWithEmail_keeps_input.
  - left. apply signUpWithEmail_keeps_input.
Qed.

Lemma fire_inflight_keeps_input ev c :
  inflight_keeps_input c -> inflight_keeps_input (fire ev c).
Proof.
  intros Hc. unfold fire. destruct (enabled (store c) ev); [|exact Hc].
  destruct ev; simpl handler.
  - exact Hc.
  - exact Hc.
  - apply resume_keeps_input; [apply signInWithEmail_keeps_input | exact Hc].
  - apply resume_keeps_input; [apply signUpWithEmail_keeps_input | exact Hc].
Qed.

Lemma settle_keeps_input c pre k post r :
  inflight_keeps_input c -> inflight c = pre ++ k :: post ->
  email (store (settle pre post k r c)) = email (store c) /\
  password (store (settle pre post k r c)) = password (store c) /\
  inflight_keeps_input (settle pre post k r c).
Proof.
  unfold inflight_keeps_input. intros Hc E. rewrite E in Hc.
  apply Forall_app in Hc as [Hpre Hk]. inversion Hk as [|? ? Hk0 Hpost]; subst.
  unfold settle.
  apply (resume_keeps_input (k r) (Hk0 r)
           {| store := store c; inflight := pre ++ post;
              history := history c |}).
  unfold inflight_keeps_input. simpl. apply Forall_app. split; assumption.
Qed.

Lemma reachable_inflight_keeps_input c :
  reachable c -> inflight_keeps_input c.
Proof.
  induction 1 as [|c c' _ IH Hstep].
  - constructor.
  - destruct Hstep.
    + apply fire_inflight_keeps_input; exact IH.
    + eapply settle_keeps_input; eassumption.
Qed.

(** X13: on the mounted component the stored email and password change
    only by typing: a step that changes the email is a keystroke in the
    email input that stores the text typed, and likewise for the
    password; pressing a button and the settling of a request never
    write either. *)
Theorem inputs_change_only_by_typing c c' :
  reachable c -> step c c' ->
  (email (store c') = email (store c) \/
   exists text, c' = fire (ChangeEmailText text) c /\
                email (store c') = text) /\
  (password (store c') = password (store c) \/
   exists text, c' = fire (ChangePasswordText text) c /\
                password (store c') = text).
Proof.
  intros Hr Hstep. pose proof (reachable_inflight_keeps_input c Hr) as Hc.
  destruct Hstep as [ev c|c pre k post r E].
  - unfold fire. destruct (enabled (store c) ev) eqn:En; [|auto].
    destruct ev as [text|text| |]; simpl handler.
    + split; [right | left; reflexivity].
      exists text. unfold fire. rewrite En. split; reflexivity.
    + split; [left; reflexivity | right].
      exists text. unfold fire. rewrite En. split; reflexivity.
    + destruct (resume_keeps_input _
                  (signInWithEmail_keeps_input (email (store c))
                     (password (store c))) c Hc) as (E1 & E2 & _).
      auto.
    + destruct (resume_keeps_input _
                  (signUpWithEmail_keeps_input (email (store c))
                     (password (store c))) c Hc) as (E1 & E2 & _).
      auto.
  - destruct (settle_keeps_input c pre k post r Hc E) as (E1 & E2 & _). auto.
Qed.

Lemma inputs_change_only_by_typing_witness :
  email (store (fire PressSignUp (fire (ChangeEmailText (js " a@b.co ")) mounted)))
    = js " a@b.co " /\
  (email (store (fire (ChangeEmailText (js "new")) typed)) = email (store typed) \/
   exists text,
     fire (ChangeEmailText (js "new")) typed = fire (ChangeEmailText text) typed /\
     email (store (fire (ChangeEmailText (js "new")) typed)) = text).
Proof.
  split; [reflexivity|].
  apply (inputs_change_only_by_typing typed
           (fire (ChangeEmailText (js "new")) typed)).
  - unfold typed. repeat (eapply reach_step; [|apply step_fire]).
    apply reach_mounted.
  - apply step_fire.
Defined.

(** *** Editing and retrying *)

(** X14: a keystroke in either input of a screen that is not loading
    stores the text exactly as typed (nothing is trimmed or validated),
    and the tree rendered next shows that text in the input and no
    error message, whatever error was shown before. *)
Theorem typing_clears_banner os c text :
  loading (store c) = false ->
  (email (store (fire (ChangeEmailText text) c)) = text /\
   banners (render os (store (fire (ChangeEmailText text) c))) = [] /\
   option_map value
     (nth_error (inputs (render os (store (fire (ChangeEmailText text) c)))) 0)
     = Some text) /\
  (password (store (fire (ChangePasswordText text) c)) = text /\
   banners (render os (store (fire (ChangePasswordText text) c))) = [] /\
   option_map value
     (nth_error (inputs (render os (store (fire (ChangePasswordText text) c)))) 1)
     = Some text).
Proof.
  intros Hl. rewrite !render_banners. unfold fire. simpl enabled. rewrite Hl.
  unfold inputs, render.
  cbn -[js strict_eq signInWithEmail signUpWithEmail].
  rewrite Hl. repeat split.
Qed.

Lemma typing_clears_banner_witness :
  banners (render (js "ios") (store (fire PressSignIn mounted)))
    = [emptyFieldsError] /\
  banners (render (js "ios")
             (store (fire (ChangeEmailText (js " a"))
                       (fire PressSignIn mounted)))) = [] /\
  email (store (fire (ChangeEmailText (js " a"))
                  (fire PressSignIn mounted))) = js " a".
Proof.
  split; [reflexivity|].
  destruct (typing_clears_banner (js "ios") (fire PressSignIn mounted)
              (js " a") eq_refl) as [(E & B & _) _].
  split; [exact B | exact E].
Defined.

(** X15: the component does not stay loading once its request has
    settled: on every screen that can be reached, however the request
    in flight settles, the screen after it has [loading] false, nothing
    in flight, and every control enabled again. *)
Theorem settle_returns_to_idle c pre k post r :
  reachable c -> inflight c = pre ++ k :: post ->
  loading (store (settle pre post k r c)) = false /\
  inflight (settle pre post k r c) = [] /\
  (forall ev, enabled (store (settle pre post k r c)) ev = true).
Proof.
  intros H E. destruct (reachable_invariant c H) as [_ Hs].
  assert (Hl : loading (store (settle pre post k r c)) = false /\
               inflight (settle pre post k r c) = []).
  { destruct Hs as [[_ Hi]|(_ & _ & k0 & Hi & Hk)]; rewrite Hi in E.
    - destruct pre; discriminate E.
    - destruct pre as [|x pre].
      + simpl in E. injection E as E1 E2. subst k0 post. unfold settle.
        destruct (Hk r {| store := store c; inflight := [];
                          history := history c |}) as (L & I & _).
        split; assumption.
      + simpl in E. injection E as _ E2. destruct pre; discriminate E2. }
  destruct Hl as [Hl Hi]. repeat split; try assumption.
  intros ev. destruct ev; simpl; rewrite Hl; reflexivity.
Qed.

Lemma settle_returns_to_idle_witness :
  exists k,
    inflight submitted = [k] /\
    loading (store (settle [] [] k
                      (Supabase.Rejected (Supabase.Thrown (js "timeout")))
                      submitted)) = false /\
    error (store (settle [] [] k
                    (Supabase.Rejected (Supabase.Thrown (js "timeout")))
                    submitted)) = networkError.
Proof.
  destruct (inflight submitted) as [|k l] eqn:E; [discriminate E|].
  destruct l; [|discriminate E].
  exists k. split; [reflexivity|].
  split.
  - apply (settle_returns_to_idle submitted [] k []
             (Supabase.Rejected (Supabase.Thrown (js "timeout")))
             submitted_reachable E).
  - revert E. cbn -[js trim strict_eq or_else networkError].
    intros E. injection E as <-. reflexivity.
Defined.

End ScreenMore.
